(** * analysis.py: an interactive correlation notebook

    A shallow embedding of the seven cells of [analysis.py] (imports,
    widgets, data, analysis, summary, plot, preview), of the Python values
    that flow between them, and of the reactive evaluator the notebook
    runs under, followed by the properties of the program.

    Layout:
    - [Py]      : Python values, exceptions, [int()], [float()], ['.Nf'];
    - [NumPy]   : the interface of the numpy module the cells receive;
    - [Pandas], [Pyplot], [Marimo] : the library objects the cells build;
    - [Notebook]: the cells themselves and the cell table [app];
    - [Reactive]: the dependency graph and the notify/evaluate scheduler;
    - theorems. *)

From Stdlib Require Import ZArith String List Lia Bool.
From Stdlib Require Import PrimFloat FloatOps SpecFloat.
From stdpp Require Import gmap strings list pretty.

Local Open Scope string_scope.
Local Open Scope Z_scope.
Local Open Scope list_scope.

(* Decimal literals such as 0.1 denote the nearest binary64, as in Python. *)
Set Warnings "-inexact-float,-clear-no-such-hyp".

(* ===================================================================== *)
(** ** Python values *)
(* ===================================================================== *)

Module Py.

(** The exceptions the cells can raise. *)
Inductive exn : Set :=
| TypeError | AttributeError | ValueError | KeyError | IndexError
| OverflowError.

(** A computation either raises or returns. *)
Inductive result (A : Type) : Type :=
| Raise (e : exn)
| Ok (a : A).
Arguments Raise {A} e.
Arguments Ok {A} a.

Definition bind {A B} (m : result A) (k : A -> result B) : result B :=
  match m with
  | Raise e => Raise e
  | Ok a => k a
  end.

Definition raised {A} (m : result A) : bool :=
  match m with Raise _ => true | Ok _ => false end.

(** Python numbers: [int] is unbounded, [float] is IEEE binary64. *)
Inductive num : Set :=
| NInt (z : Z)
| NFloat (f : float).

(** [int(v)]: the identity on ints, truncation toward zero on floats;
    [int(nan)] raises ValueError and [int(inf)] OverflowError. *)
Definition py_int (v : num) : result Z :=
  match v with
  | NInt z => Ok z
  | NFloat f =>
      match Prim2SF f with
      | S754_nan => Raise ValueError
      | S754_infinity _ => Raise OverflowError
      | S754_zero _ => Ok 0
      | S754_finite s m e =>
          let a := if 0 <=? e then Z.pos m * 2 ^ e
                   else Z.pos m / 2 ^ (- e) in
          Ok (if s then - a else a)
      end
  end.

(** [float(v)]: the identity on floats; an int is rounded to the nearest
    binary64 (ties to even) and raises OverflowError when out of range. *)
Definition py_float (v : num) : result float :=
  match v with
  | NFloat f => Ok f
  | NInt z =>
      match binary_normalize prec emax z 0 false with
      | S754_infinity _ => Raise OverflowError
      | sf => Ok (SF2Prim sf)
      end
  end.

(** *** Fixed-point formatting, [format(x, '.Nf')] *)

(** [m * 2^e] rounded to the nearest integer, ties to even. *)
Definition round_half_even (m e : Z) : Z :=
  if 0 <=? e then m * 2 ^ e
  else
    let d := 2 ^ (- e) in
    let q := m / d in
    let r := m mod d in
    match 2 * r ?= d with
    | Lt => q
    | Gt => q + 1
    | Eq => if Z.even q then q else q + 1
    end.

Fixpoint zeros (k : nat) : string :=
  match k with O => "" | S k' => "0" +:+ zeros k' end.

(** The digits of [n >= 0] with the decimal point [p] places from the
    right. *)
Definition fixed_digits (n : Z) (p : nat) : string :=
  let ds := pretty (Z.to_N n) in
  let ds := zeros (S p - String.length ds)%nat +:+ ds in
  let k := (String.length ds - p)%nat in
  match p with
  | O => ds
  | _ => substring 0 k ds +:+ "." +:+ substring k p ds
  end.

Definition format_f (p : nat) (x : float) : string :=
  match Prim2SF x with
  | S754_nan => "nan"
  | S754_infinity s => if s then "-inf" else "inf"
  | S754_zero s => (if s then "-" else "") +:+ fixed_digits 0 p
  | S754_finite s m e =>
      (if s then "-" else "")
      +:+ fixed_digits (round_half_even (Z.pos m * 10 ^ Z.of_nat p) e) p
  end.

End Py.
Export Py.

Declare Scope py_scope.
Delimit Scope py_scope with py.
Notation "'let*' x ':=' m 'in' k" := (Py.bind m (fun x => k))
  (at level 10, x pattern, m at level 100, k at level 200) : py_scope.
Local Open Scope py_scope.

(* ===================================================================== *)
(** ** The libraries the cells use *)
(* ===================================================================== *)

(** *** numpy

    The notebook receives numpy as the cell parameter [np] and uses three
    of its entry points.  Their implementation (the PCG64 bit generator,
    the ziggurat sampler, the covariance code) is numpy's own, so it is an
    interface here: a [Generator] is a bit-generator state, seeding is a
    function of the seed, and a draw is a function of the state that
    returns the samples and the advanced state. *)
Module NumPy.

Definition ndarray := list float.
Definition matrix := list (list float).

Record numpy : Type := {
  (** the state held by a [numpy.random.Generator] *)
  BitGenerator : Type;
  (** the state [np.random.default_rng(seed)] starts from *)
  seed_state : Z -> BitGenerator;
  (** [Generator.normal(loc, scale, size)] from a given state *)
  normal : BitGenerator -> float -> float -> Z ->
           result (ndarray * BitGenerator);
  (** [np.corrcoef(x, y)] *)
  corrcoef : ndarray -> ndarray -> result matrix
}.

(** What the cells rely on from numpy: [normal] fills an array of [size]
    samples when [size] and [scale] are non-negative, and [corrcoef] of
    two arrays of one length is a 2x2 matrix. *)
Record numpy_ok (np : numpy) : Prop := {
  normal_ok : forall g loc scale size,
    0 <= size -> PrimFloat.leb 0 scale = true ->
    exists xs g', normal np g loc scale size = Ok (xs, g')
                  /\ length xs = Z.to_nat size;
  corrcoef_ok : forall x y : ndarray,
    length x = length y ->
    exists a b c d, corrcoef np x y = Ok [[a; b]; [c; d]]
}.

(** [a * x] for a scalar [a]. *)
Definition scalar_mul (a : float) (x : ndarray) : ndarray :=
  map (PrimFloat.mul a) x.

(** [x + y] with numpy's broadcasting of one-dimensional arrays. *)
Definition array_add (x y : ndarray) : result ndarray :=
  if (length x =? length y)%nat then Ok (zip_with PrimFloat.add x y)
  else match x, y with
       | [a], _ => Ok (map (PrimFloat.add a) y)
       | _, [b] => Ok (map (fun a => PrimFloat.add a b) x)
       | _, _ => Raise ValueError
       end.

(** [m[i, j]] *)
Definition getitem2 (m : matrix) (i j : nat) : result float :=
  match m !! i with
  | None => Raise IndexError
  | Some row => match row !! j with
                | None => Raise IndexError
                | Some a => Ok a
                end
  end.

End NumPy.
Export NumPy.

(** *** pandas *)
Module Pandas.

(** A frame is its columns in insertion order. *)
Record DataFrame : Type := { columns : list (string * ndarray) }.

Definition column_names (df : DataFrame) : list string :=
  map fst (columns df).

(** The number of rows: the length of the index. *)
Definition nrows (df : DataFrame) : nat :=
  match columns df with
  | [] => O
  | (_, c) :: _ => length c
  end.

Definition same_length (n : nat) (cols : list (string * ndarray)) : bool :=
  forallb (fun kc => (length (snd kc) =? n)%nat) cols.

(** [pd.DataFrame(dict)]: every array must have the same length. *)
Definition mkDataFrame (data : list (string * ndarray)) : result DataFrame :=
  match data with
  | [] => Ok {| columns := [] |}
  | (_, c) :: _ =>
      if same_length (length c) data then Ok {| columns := data |}
      else Raise ValueError
  end.

(** The invariant of a frame: every column has the length of the index. *)
Definition well_formed (df : DataFrame) : bool :=
  same_length (nrows df) (columns df).

Fixpoint lookup_column (key : string) (cols : list (string * ndarray))
  : option ndarray :=
  match cols with
  | [] => None
  | (k, c) :: rest => if String.eqb k key then Some c
                      else lookup_column key rest
  end.

(** [df[key]] *)
Definition getitem (df : DataFrame) (key : string) : result ndarray :=
  match lookup_column key (columns df) with
  | Some c => Ok c
  | None => Raise KeyError
  end.

(** [df.head(k)] *)
Definition head (k : nat) (df : DataFrame) : DataFrame :=
  {| columns := map (fun kc => (fst kc, firstn k (snd kc))) (columns df) |}.

End Pandas.
Export Pandas.

(** *** matplotlib.pyplot *)
Module Pyplot.

Record Axes : Type := {
  collections : list (ndarray * ndarray);
  xlabel : string;
  ylabel : string;
  title : string
}.

(** A figure owns its axes: [fig, ax = plt.subplots()] hands out both, and
    what is drawn on [ax] is what [fig] shows. *)
Record Figure : Type := { axes : Axes }.

Definition subplots : Axes :=
  {| collections := []; xlabel := ""; ylabel := ""; title := "" |}.

(** [ax.scatter(x, y)]: x and y must be the same size. *)
Definition scatter (x y : ndarray) (ax : Axes) : result Axes :=
  if (length x =? length y)%nat
  then Ok {| collections := collections ax ++ [(x, y)];
             xlabel := xlabel ax; ylabel := ylabel ax; title := title ax |}
  else Raise ValueError.

Definition set_xlabel (s : string) (ax : Axes) : Axes :=
  {| collections := collections ax; xlabel := s;
     ylabel := ylabel ax; title := title ax |}.

Definition set_ylabel (s : string) (ax : Axes) : Axes :=
  {| collections := collections ax; xlabel := xlabel ax;
     ylabel := s; title := title ax |}.

Definition set_title (s : string) (ax : Axes) : Axes :=
  {| collections := collections ax; xlabel := xlabel ax;
     ylabel := ylabel ax; title := s |}.

End Pyplot.
Export Pyplot.

(** *** marimo widgets *)
Module Marimo.

(** [mo.ui.slider(start, stop, step, value, label)] *)
Record slider : Set := {
  start : num;
  stop : num;
  step : num;
  value : num;
  label : string
}.

(** The user moving a slider: same widget, new [value]. *)
Definition set_value (v : num) (s : slider) : slider :=
  {| start := start s; stop := stop s; step := step s;
     value := v; label := label s |}.

End Marimo.
Export Marimo.

(** *** The objects that flow between cells *)

Inductive pymodule : Set := Mmarimo | Mnumpy | Mpandas | Mpyplot.

Inductive obj : Type :=
| ONone
| OInt (z : Z)
| OFloat (f : float)
| OModule (m : pymodule)
| OSlider (s : slider)
| OFrame (df : DataFrame)
| OFigure (fig : Figure).

(** Attribute access on a module: anything else has no such attribute. *)
Definition the_module (m : pymodule) (o : obj) : result unit :=
  match o with
  | OModule m' =>
      match m, m' with
      | Mmarimo, Mmarimo | Mnumpy, Mnumpy
      | Mpandas, Mpandas | Mpyplot, Mpyplot => Ok tt
      | _, _ => Raise AttributeError
      end
  | _ => Raise AttributeError
  end.

(** [o.value] *)
Definition attr_value (o : obj) : result num :=
  match o with
  | OSlider s => Ok (value s)
  | _ => Raise AttributeError
  end.

(** [o[key]] *)
Definition subscript (o : obj) (key : string) : result ndarray :=
  match o with
  | OFrame df => getitem df key
  | _ => Raise TypeError
  end.

(** [o.head(k)] *)
Definition attr_head (o : obj) (k : nat) : result DataFrame :=
  match o with
  | OFrame df => Ok (head k df)
  | _ => Raise AttributeError
  end.

(** [format(o, '.Nf')]: defined on numbers only. *)
Definition format_spec_f (p : nat) (o : obj) : result string :=
  match o with
  | OFloat f => Ok (format_f p f)
  | OInt z => let* f := py_float (NInt z) in Ok (format_f p f)
  | _ => Raise TypeError
  end.

(* ===================================================================== *)
(** ** The notebook *)
(* ===================================================================== *)

Module Notebook.

(** A registered cell: the function's name, its parameter names, the
    names it returns, and its body.  A body receives one argument per
    parameter ([None] where the caller supplies nothing) and runs in the
    interpreter state [W]. *)
Record cell (W : Type) : Type := {
  name : string;
  params : list string;
  returns : list string;
  body : list (option obj) -> W -> result (list obj) * W
}.
Arguments name {W} c.
Arguments params {W} c.
Arguments returns {W} c.
Arguments body {W} c.

(** A parameter without a default must be supplied. *)
Definition required (a : option obj) : result obj :=
  match a with
  | Some v => Ok v
  | None => Raise TypeError
  end.

(** A parameter with a default. *)
Definition default (d : obj) (a : option obj) : obj :=
  match a with
  | Some v => v
  | None => d
  end.

(** [import marimo as mo] at the top of the file. *)
Definition mo : obj := OModule Mmarimo.

Section Cells.

(** The numpy the notebook runs against. *)
Variable np_impl : numpy.

(** *** Generator objects

    [np.random.default_rng] allocates a new Generator object; its
    [normal] method advances that object in place.  The interpreter state
    is the heap of Generator objects, addressed by allocation index. *)
Definition heap : Type := list (BitGenerator np_impl).
Definition prog (A : Type) : Type := heap -> result A * heap.

Definition ret {A} (a : A) : prog A := fun h => (Ok a, h).

Definition lift {A} (r : result A) : prog A := fun h => (r, h).

Definition seq {A B} (m : prog A) (k : A -> prog B) : prog B :=
  fun h => match m h with
           | (Raise e, h') => (Raise e, h')
           | (Ok a, h') => k a h'
           end.

Notation "'do' x '<-' m ';' k" := (seq m (fun x => k))
  (at level 10, x pattern, m at level 100, k at level 200).

Definition default_rng (seed : Z) : prog nat :=
  fun h => (Ok (length h), (h ++ [seed_state np_impl seed])%list).

Definition Generator_normal (rng : nat) (loc scale : float) (size : Z)
  : prog ndarray :=
  fun h => match h !! rng with
           | None => (Raise AttributeError, h)
           | Some g =>
               match normal np_impl g loc scale size with
               | Raise e => (Raise e, h)
               | Ok (xs, g') => (Ok xs, <[rng := g']> h)
               end
           end.

(** *** Cell 1: imports *)
Definition imports : result (obj * obj * obj) :=
  Ok (OModule Mnumpy, OModule Mpandas, OModule Mpyplot).

(** *** Cell 2: widgets *)
Definition widgets (mo : obj) : result (obj * obj) :=
  let* _ := the_module Mmarimo mo in
  let n := {| start := NInt 50; stop := NInt 2000; step := NInt 50;
              value := NInt 500; label := "Sample size (n)" |} in
  let sigma := {| start := NFloat 0.1; stop := NFloat 5.0;
                  step := NFloat 0.1; value := NFloat 1.0;
                  label := "Noise σ" |} in
  let controls := [n; sigma] in
  Ok (OSlider n, OSlider sigma).

(** *** Cell 3: data generation *)
Definition data (np pd n sigma : obj) : prog obj :=
  do _ <- lift (the_module Mnumpy np);
  do rng <- default_rng 42;
  do nv <- lift (attr_value n);
  do size <- lift (py_int nv);
  do x <- Generator_normal rng 0.0 1.0 size;
  do sv <- lift (attr_value sigma);
  do scale <- lift (py_float sv);
  do noise <- Generator_normal rng 0.0 scale size;
  do y <- lift (array_add (scalar_mul 2.0 x) noise);
  do _ <- lift (the_module Mpandas pd);
  do df <- lift (mkDataFrame [("x", x); ("y", y)]);
  ret (OFrame df).

(** Section 4.2 of the specification asks for a data-generating compute
    function whose seed is supplied by the caller.  This is [data] with
    the seed as a parameter, for comparison with the cell. *)
Definition data_with_caller_seed (seed : Z) (np pd n sigma : obj)
  : prog obj :=
  do _ <- lift (the_module Mnumpy np);
  do rng <- default_rng seed;
  do nv <- lift (attr_value n);
  do size <- lift (py_int nv);
  do x <- Generator_normal rng 0.0 1.0 size;
  do sv <- lift (attr_value sigma);
  do scale <- lift (py_float sv);
  do noise <- Generator_normal rng 0.0 scale size;
  do y <- lift (array_add (scalar_mul 2.0 x) noise);
  do _ <- lift (the_module Mpandas pd);
  do df <- lift (mkDataFrame [("x", x); ("y", y)]);
  ret (OFrame df).

(** The reading of section 4.2 on this cell: the samples the cell draws
    are those of the seed its caller supplies, whichever it is. *)
Definition seed_supplied_by_caller : Prop :=
  forall (seed : Z) (np pd n sigma : obj) (h : heap),
    fst (data np pd n sigma h)
    = fst (data_with_caller_seed seed np pd n sigma h).

(** *** Cell 4: analysis *)
Definition analysis (np df : obj) : result obj :=
  let* _ := the_module Mnumpy np in
  let* x := subscript df "x" in
  let* y := subscript df "y" in
  let* m := corrcoef np_impl x y in
  let* r := getitem2 m 0 1 in
  Ok (OFloat r).

(** Running the data cell and then the analysis cell on its frame. *)
Definition data_then_analysis (np pd n sigma : obj) : prog (obj * obj) :=
  do df <- data np pd n sigma;
  do corr <- lift (analysis np df);
  ret (df, corr).

(** *** Cell 5: dynamic markdown *)
Definition summary_text (n : Z) (sigma : float) (corr : string) : string :=
  "
# Interactive correlation demo

**Email:** `24ds1000121@ds.study.iitm.ac.in`  

- Current sample size **n = " +:+ pretty n +:+ "**
- Current noise **σ = " +:+ format_f 2 sigma +:+ "**
- Estimated Pearson correlation **r = " +:+ corr +:+ "**

> Increase σ to add noise and reduce correlation. Increase n to stabilize the estimate.

*Data flow:* `widgets → data → analysis → (summary + plot + preview)`
".

(** The markdown the cell hands to [mo.md]. *)
Definition summary_md (mo n sigma corr : obj) : result string :=
  let* _ := the_module Mmarimo mo in
  let* nv := attr_value n in
  let* ni := py_int nv in
  let* sv := attr_value sigma in
  let* sf := py_float sv in
  let* c := format_spec_f 3 corr in
  Ok (summary_text ni sf c).

Definition summary (mo n sigma corr : obj) : result obj :=
  let* _ := summary_md mo n sigma corr in
  Ok ONone.

(** *** Cell 6: visualization *)
Definition plot (df plt : obj) : result obj :=
  let* _ := the_module Mpyplot plt in
  let ax := subplots in
  let* x := subscript df "x" in
  let* y := subscript df "y" in
  let* ax := scatter x y ax in
  let ax := set_xlabel "x" ax in
  let ax := set_ylabel "y" ax in
  let ax := set_title "Scatter plot of y vs x" ax in
  Ok (OFigure {| axes := ax |}).

(** *** Cell 7: data preview *)
Definition preview (df : obj) : result obj :=
  let* _ := attr_head df 12 in
  Ok ONone.

(** What the preview cell displays: the value of its last expression,
    [df.head(12)]. *)
Definition preview_shown (df : obj) : result DataFrame :=
  attr_head df 12.

(** *** The cell table

    [@app.cell] registers each function under its parameter names and
    the names in its [return]; the bodies below bind the arguments the
    way the [def] line does. *)
Definition imports_cell : cell heap :=
  {| name := "imports"; params := []; returns := ["np"; "pd"; "plt"];
     body := fun args =>
       match args with
       | [] => lift (let* (a, b, c) := imports in Ok [a; b; c])
       | _ => lift (Raise TypeError)
       end |}.

Definition widgets_cell : cell heap :=
  {| name := "widgets"; params := ["mo"]; returns := ["n"; "sigma"];
     body := fun args =>
       match args with
       | [a] => lift (let* (n, sigma) := widgets (default mo a) in
                      Ok [n; sigma])
       | _ => lift (Raise TypeError)
       end |}.

Definition data_cell : cell heap :=
  {| name := "data"; params := ["np"; "pd"; "n"; "sigma"];
     returns := ["df"];
     body := fun args =>
       match args with
       | [a; b; c; d] =>
           do np <- lift (required a);
           do pd <- lift (required b);
           do n <- lift (required c);
           do sigma <- lift (required d);
           do df <- data np pd n sigma;
           ret [df]
       | _ => lift (Raise TypeError)
       end |}.

Definition analysis_cell : cell heap :=
  {| name := "analysis"; params := ["np"; "df"]; returns := ["corr"];
     body := fun args =>
       match args with
       | [a; b] => lift (let* np := required a in
                         let* df := required b in
                         let* corr := analysis np df in
                         Ok [corr])
       | _ => lift (Raise TypeError)
       end |}.

Definition summary_cell : cell heap :=
  {| name := "summary"; params := ["mo"; "n"; "sigma"; "corr"];
     returns := [];
     body := fun args =>
       match args with
       | [a; b; c; d] =>
           lift (let* _ := summary (default mo a) (default ONone b)
                                   (default ONone c) (default ONone d) in
                 Ok [])
       | _ => lift (Raise TypeError)
       end |}.

Definition plot_cell : cell heap :=
  {| name := "plot"; params := ["df"; "plt"]; returns := ["fig"];
     body := fun args =>
       match args with
       | [a; b] => lift (let* df := required a in
                         let* plt := required b in
                         let* fig := plot df plt in
                         Ok [fig])
       | _ => lift (Raise TypeError)
       end |}.

Definition preview_cell : cell heap :=
  {| name := "preview"; params := ["df"]; returns := [];
     body := fun args =>
       match args with
       | [a] => lift (let* df := required a in
                      let* _ := preview df in
                      Ok [])
       | _ => lift (Raise TypeError)
       end |}.

(** The cells in the order the file declares them. *)
Definition app : list (cell heap) :=
  [imports_cell; widgets_cell; data_cell; analysis_cell;
   summary_cell; plot_cell; preview_cell].

End Cells.

(** The figure the plot cell builds from two coordinate arrays. *)
Definition scatter_figure (x y : ndarray) : Figure :=
  {| axes := {| collections := [(x, y)]; xlabel := "x"; ylabel := "y";
                title := "Scatter plot of y vs x" |} |}.

End Notebook.
Export Notebook.

(* ===================================================================== *)
(** ** The reactive evaluator *)
(* ===================================================================== *)

(** Modelled from the spec: the dependency graph and the change
    propagator (sections 3, 4.1 and 4.2).  The notebook file only
    registers its cells with [@app.cell]; the scheduler that runs them is
    not part of the file.  The model below follows the specification:
    cells in a fixed topological order, a state per cell, [notify] marking
    the forward closure of a change stale, and [evaluate] walking the stale
    cells in order. *)
Module Reactive.

(** Per-cell state: [Stale -> Computing -> {Fresh, Errored}].  A pass is
    synchronous, so [Computing] is held only inside one [settle]. *)
Inductive cell_state : Set := Stale | Computing | Fresh | Errored.

(** What a snapshot read of one output name gives: a value, or the error
    that stopped the branch producing it. *)
Inductive slot : Type :=
| Value (v : obj)
| Failed (e : exn).

Section Graph.

Context {W : Type}.

(** Cell [a] depends on cell [b] when one of [a]'s parameter names is one
    of the names [b] returns. *)
Definition depends_on (a b : cell W) : Prop :=
  exists q : string, q ∈ params a /\ q ∈ returns b.

Definition depends_onb (a b : cell W) : bool :=
  existsb (fun q => bool_decide (q ∈ returns b)) (params a).

(** All the output names of a list of cells. *)
Definition outputs_of (cs : list (cell W)) : list string :=
  concat (map returns cs).

(** Binding invariant: no output name is declared twice. *)
Definition unique_outputs (cs : list (cell W)) : Prop :=
  NoDup (outputs_of cs).

(** A listing is topological when every cell comes after every cell
    producing one of its inputs. *)
Definition topological (cs : list (cell W)) : Prop :=
  forall (i j : nat) (a b : cell W),
    cs !! i = Some a -> cs !! j = Some b -> depends_on a b -> (j < i)%nat.

Fixpoint topologicalb (cs : list (cell W)) : bool :=
  match cs with
  | [] => true
  | c :: rest =>
      forallb (fun q => negb (bool_decide (q ∈ outputs_of (c :: rest))))
              (params c)
      && topologicalb rest
  end.

(** Every input is bound: a parameter name is either one of the names
    [given] from outside the graph or a name returned by a cell listed
    earlier. *)
Definition inputs_resolved (given : list string) (cs : list (cell W))
  : Prop :=
  forall (i : nat) (c : cell W) (q : string),
    cs !! i = Some c -> q ∈ params c ->
    q ∈ given \/
    exists (j : nat) (b : cell W),
      (j < i)%nat /\ cs !! j = Some b /\ q ∈ returns b.

Fixpoint inputs_resolvedb (bound : list string) (cs : list (cell W))
  : bool :=
  match cs with
  | [] => true
  | c :: rest =>
      forallb (fun q => bool_decide (q ∈ bound)) (params c)
      && inputs_resolvedb (returns c ++ bound) rest
  end.

(** The dependency relation of a graph, and its cycles. *)
Definition edge (cs : list (cell W)) (a b : cell W) : Prop :=
  a ∈ cs /\ b ∈ cs /\ depends_on a b.

Definition acyclic (cs : list (cell W)) : Prop :=
  forall c : cell W, ~ tc (edge cs) c c.

(** *** Graph state *)

Record graph_state : Type := {
  (** state of each cell, by cell name *)
  status : gmap string cell_state;
  (** value cells and the cached outputs of cells, by name *)
  outputs : gmap string slot;
  (** the interpreter state the compute functions run in *)
  world : W;
  (** the cells settled by evaluation passes so far, oldest first *)
  recomputed : list string
}.

Definition is_stale (σ : graph_state) (c : cell W) : bool :=
  match status σ !! name c with
  | Some Stale => true
  | _ => false
  end.

(** Initially every cell is stale and only the value cells hold values. *)
Definition init (cs : list (cell W)) (values : gmap string slot) (w : W)
  : graph_state :=
  {| status := list_to_map (map (fun c => (name c, Stale)) cs);
     outputs := values; world := w; recomputed := [] |}.

(** An input event: the value cell [k] now holds [v]. *)
Definition set_value_cell (k : string) (v : obj) (σ : graph_state)
  : graph_state :=
  {| status := status σ; outputs := <[k := Value v]> (outputs σ);
     world := world σ; recomputed := recomputed σ |}.

(** *** notify *)

(** One pass down the topological order: a cell is affected when it reads
    a changed name or an output of an affected cell. *)
Fixpoint affected (dirty : list string) (cs : list (cell W)) : list string :=
  match cs with
  | [] => []
  | c :: rest =>
      if existsb (fun q => bool_decide (q ∈ dirty)) (params c)
      then name c :: affected (returns c ++ dirty)%list rest
      else affected dirty rest
  end.

(** The forward transitive closure of a change: the cells that read a
    changed name, and the cells that read an output of such a cell. *)
Inductive downstream_of (changed : list string) (cs : list (cell W))
  : cell W -> Prop :=
| reads_changed (c : cell W) (q : string) :
    c ∈ cs -> q ∈ params c -> q ∈ changed -> downstream_of changed cs c
| reads_downstream (c d : cell W) (q : string) :
    c ∈ cs -> downstream_of changed cs d ->
    q ∈ params c -> q ∈ returns d -> downstream_of changed cs c.

Definition mark_stale (ks : list string) (st : gmap string cell_state)
  : gmap string cell_state :=
  foldr (fun k m => <[k := Stale]> m) st ks.

Definition notify (cs : list (cell W)) (changed : list string)
  (σ : graph_state) : graph_state :=
  {| status := mark_stale (affected changed cs) (status σ);
     outputs := outputs σ; world := world σ;
     recomputed := recomputed σ |}.

(** *** evaluate *)

(** The current inputs of a cell: [None] for a name nothing holds, and
    the upstream error when one of the inputs failed. *)
Fixpoint resolve (outs : gmap string slot) (ps : list string)
  : result (list (option obj)) :=
  match ps with
  | [] => Ok []
  | q :: rest =>
      match outs !! q with
      | Some (Failed e) => Raise e
      | Some (Value v) => let* args := resolve outs rest in Ok (Some v :: args)
      | None => let* args := resolve outs rest in Ok (None :: args)
      end
  end.

Fixpoint store_values (ks : list string) (vs : list obj)
  (outs : gmap string slot) : gmap string slot :=
  match ks, vs with
  | k :: ks', v :: vs' => store_values ks' vs' (<[k := Value v]> outs)
  | _, _ => outs
  end.

Definition store_failure (e : exn) (ks : list string)
  (outs : gmap string slot) : gmap string slot :=
  foldr (fun k m => <[k := Failed e]> m) outs ks.

(** The cell and its outputs report the error. *)
Definition fail (c : cell W) (e : exn) (w : W) (σ : graph_state)
  : graph_state :=
  {| status := <[name c := Errored]> (status σ);
     outputs := store_failure e (returns c) (outputs σ);
     world := w;
     recomputed := (recomputed σ ++ [name c])%list |}.

(** Settle one cell: skip it unless stale; report an upstream failure;
    otherwise run its compute function on the resolved inputs. *)
Definition settle (σ : graph_state) (c : cell W) : graph_state :=
  if is_stale σ c then
    match resolve (outputs σ) (params c) with
    | Raise e => fail c e (world σ) σ
    | Ok args =>
        match body c args (world σ) with
        | (Raise e, w) => fail c e w σ
        | (Ok vals, w) =>
            {| status := <[name c := Fresh]> (status σ);
               outputs := store_values (returns c) vals (outputs σ);
               world := w;
               recomputed := (recomputed σ ++ [name c])%list |}
        end
    end
  else σ.

Definition evaluate (cs : list (cell W)) (σ : graph_state) : graph_state :=
  foldl settle σ cs.

(** *** Conditions on a pass *)

(** A compute function that raises, or returns, whatever it is given. *)
Definition always_raises (c : cell W) : Prop :=
  forall args w, exists e w', body c args w = (Raise e, w').

Definition never_raises (c : cell W) : Prop :=
  forall args w, exists vals w', body c args w = (Ok vals, w').

(** Staleness is closed downstream: the dependents of a stale cell are
    stale, as after [init] and after [notify]. *)
Definition stale_closed (cs : list (cell W)) (σ : graph_state) : Prop :=
  forall a b : cell W,
    a ∈ cs -> b ∈ cs -> depends_on a b ->
    is_stale σ b = true -> is_stale σ a = true.

(** No output reports an error yet. *)
Definition no_failure (σ : graph_state) : Prop :=
  forall (q : string) (e : exn), outputs σ !! q <> Some (Failed e).

(** Every cell of the graph is settled: none is stale. *)
Definition settled (cs : list (cell W)) (σ : graph_state) : Prop :=
  forall c : cell W, c ∈ cs -> is_stale σ c = false.

(** After a pass over [cs] from [σ], cell [c] is failed when it was
    stale, ended errored, and all its outputs report an error. *)
Definition failed (cs : list (cell W)) (σ : graph_state) (c : cell W)
  : Prop :=
  is_stale σ c = true /\
  status (evaluate cs σ) !! name c = Some Errored /\
  forall q, q ∈ returns c ->
            exists e, outputs (evaluate cs σ) !! q = Some (Failed e).

(** Every error in an output of [τ] comes from cell [X] or from a cell
    downstream of it. *)
Definition traced (cs : list (cell W)) (X : cell W) (τ : graph_state)
  : Prop :=
  forall q e, outputs τ !! q = Some (Failed e) ->
    exists d, d ∈ cs /\ q ∈ returns d /\ (d = X \/ tc (edge cs) d X).

(** The cells the pass from [σ] to [σ'] settled. *)
Definition pass_log (σ σ' : graph_state) : list string :=
  drop (length (recomputed σ)) (recomputed σ').

End Graph.

Arguments graph_state W : clear implicits.

End Reactive.
Export Reactive.

(* ===================================================================== *)
(** ** A small numpy to run the notebook on *)
(* ===================================================================== *)

(** A deterministic stand-in for numpy with the same interface: a linear
    congruential bit generator, normal samples as a shifted sum of twelve
    uniforms, and the textbook correlation matrix.  It is used to run the
    cells on concrete inputs. *)
Module Fixture.

Definition float_of_Z (z : Z) : float :=
  PrimFloat.of_uint63 (Uint63Axioms.of_Z z).

Definition lcg_next (g : Z) : Z := (1103515245 * g + 12345) mod 2147483648.

Definition uniform (g : Z) : float :=
  (float_of_Z g / 2147483648)%float.

Fixpoint sum_uniform (k : nat) (g : Z) (acc : float) : float * Z :=
  match k with
  | O => (acc, g)
  | S k' => let g' := lcg_next g in
            sum_uniform k' g' (acc + uniform g')%float
  end.

Fixpoint draw (k : nat) (g : Z) (loc scale : float) : ndarray * Z :=
  match k with
  | O => ([], g)
  | S k' =>
      let '(s, g1) := sum_uniform 12 g 0%float in
      let '(xs, g2) := draw k' g1 loc scale in
      ((loc + scale * (s - 6))%float :: xs, g2)
  end.

Definition lcg_normal (g : Z) (loc scale : float) (size : Z)
  : result (ndarray * Z) :=
  if size <? 0 then Raise ValueError
  else if PrimFloat.leb 0 scale then Ok (draw (Z.to_nat size) g loc scale)
  else Raise ValueError.

Definition fsum (l : ndarray) : float := foldl PrimFloat.add 0%float l.

Definition mean (l : ndarray) : float :=
  (fsum l / float_of_Z (Z.of_nat (length l)))%float.

(** The sum of products of deviations from the means. *)
Definition codeviation (x y : ndarray) : float :=
  let mx := mean x in
  let my := mean y in
  fsum (zip_with (fun a b => ((a - mx) * (b - my))%float) x y).

Definition pearson (x y : ndarray) : float :=
  (codeviation x y
   / PrimFloat.sqrt (codeviation x x * codeviation y y))%float.

Definition pearson_matrix (x y : ndarray) : result matrix :=
  if (length x =? length y)%nat
  then Ok [[pearson x x; pearson x y]; [pearson y x; pearson y y]]
  else Raise ValueError.

Definition lcg_numpy : numpy :=
  {| BitGenerator := Z;
     seed_state := fun seed => seed mod 2147483648;
     normal := lcg_normal;
     corrcoef := pearson_matrix |}.

(** The sliders of the widgets cell with the user's current values. *)
Definition n_widget (v : Z) : slider :=
  {| start := NInt 50; stop := NInt 2000; step := NInt 50;
     value := NInt v; label := "Sample size (n)" |}.

Definition sigma_widget (v : float) : slider :=
  {| start := NFloat 0.1; stop := NFloat 5.0; step := NFloat 0.1;
     value := NFloat v; label := "Noise σ" |}.

Definition n_slider (v : Z) : obj := OSlider (n_widget v).
Definition sigma_slider (v : float) : obj := OSlider (sigma_widget v).

(** The first entry of column [x] of the frame a run returned, if any. *)
Definition first_x (r : result obj) : option float :=
  match r with
  | Ok (OFrame df) =>
      match lookup_column "x" (columns df) with
      | Some (a :: _) => Some a
      | _ => None
      end
  | _ => None
  end.

(** The frame a run returned (the empty frame if it returned none). *)
Definition frame_of (r : result obj) : DataFrame :=
  match r with
  | Ok (OFrame df) => df
  | _ => {| columns := [] |}
  end.

(** Whether two samples are the same number. *)
Definition same_sample (a b : option float) : bool :=
  match a, b with
  | Some u, Some v => PrimFloat.eqb u v
  | _, _ => false
  end.

(** The notebook after its first pass, after the user then moves the
    sigma slider to 5.0, and after the pass that follows. *)
Definition first_pass : graph_state (heap lcg_numpy) :=
  evaluate (app lcg_numpy) (init (app lcg_numpy) ∅ []).

Definition sigma_moved : graph_state (heap lcg_numpy) :=
  set_value_cell "sigma" (sigma_slider 5.0) first_pass.

Definition second_pass : graph_state (heap lcg_numpy) :=
  evaluate (app lcg_numpy) (notify (app lcg_numpy) ["sigma"] sigma_moved).

(** The two-cell scenario of section 8 of the specification: value cells
    n and sigma, a data cell and an analysis cell. *)
Definition scenario (np : numpy) : list (cell (heap np)) :=
  [data_cell np; analysis_cell np].

(** A three-cell graph over the value cell "a": [boom] raises, [side]
    reads only "a", and [after] reads what [boom] returns. *)
Definition boom : cell unit :=
  {| name := "boom"; params := ["a"]; returns := ["u"];
     body := fun _ w => (Raise ValueError, w) |}.

Definition side : cell unit :=
  {| name := "side"; params := ["a"]; returns := ["v"];
     body := fun _ w => (Ok [OInt 1], w) |}.

Definition after : cell unit :=
  {| name := "after"; params := ["u"]; returns := ["t"];
     body := fun _ w => (Ok [OInt 2], w) |}.

Definition small_graph : list (cell unit) := [boom; side; after].

Definition small_start : graph_state unit :=
  init small_graph {["a" := Value (OInt 3)]} tt.

End Fixture.
Export Fixture.

(* ===================================================================== *)
(** ** Properties of the cells *)
(* ===================================================================== *)

(** *** Generator objects on the heap *)

Section HeapFacts.

Variable np : numpy.

Lemma heap_lookup_new (h : heap np) (g : BitGenerator np) :
  (h ++ [g]) !! length h = Some g.
Proof. by rewrite list_lookup_middle. Qed.

Lemma heap_update_new (h : heap np) (g g' : BitGenerator np) :
  <[length h := g']> (h ++ [g]) = h ++ [g'].
Proof.
  rewrite insert_app_r_alt by lia.
  by rewrite Nat.sub_diag.
Qed.

(** A draw from the generator just allocated at the end of the heap. *)
Lemma normal_on_new (h : heap np) (g : BitGenerator np) loc scale size :
  Generator_normal np (length h) loc scale size (h ++ [g]) =
  match normal np g loc scale size with
  | Raise e => (Raise e, h ++ [g])
  | Ok (xs, g') => (Ok xs, h ++ [g'])
  end.
Proof.
  unfold Generator_normal. rewrite heap_lookup_new.
  destruct (normal np g loc scale size) as [e | [xs g']]; [done |].
  by rewrite heap_update_new.
Qed.

(** What a run of the data cell that returns has done, step by step. *)
Lemma data_inv (npo pdo n sigma r : obj) (h h' : heap np) :
  data np npo pdo n sigma h = (Ok r, h') ->
  exists nv size x g1 sv scale noise g2 y,
    attr_value n = Ok nv /\ py_int nv = Ok size /\
    normal np (seed_state np 42) 0 1 size = Ok (x, g1) /\
    attr_value sigma = Ok sv /\ py_float sv = Ok scale /\
    normal np g1 0 scale size = Ok (noise, g2) /\
    array_add (scalar_mul 2 x) noise = Ok y /\
    mkDataFrame [("x", x); ("y", y)]
      = Ok {| columns := [("x", x); ("y", y)] |} /\
    r = OFrame {| columns := [("x", x); ("y", y)] |} /\
    h' = h ++ [g2].
Proof.
  unfold data, seq, lift, ret, default_rng.
  destruct (the_module Mnumpy npo); [done |].
  destruct (attr_value n) as [| nv] eqn:Hnv; [done |].
  destruct (py_int nv) as [| size] eqn:Hsize; [done |].
  rewrite normal_on_new.
  destruct (normal np (seed_state np 42) 0 1 size) as [| [x g1]] eqn:Hx;
    [done |].
  destruct (attr_value sigma) as [| sv] eqn:Hsv; [done |].
  destruct (py_float sv) as [| scale] eqn:Hscale; [done |].
  rewrite normal_on_new.
  destruct (normal np g1 0 scale size) as [| [noise g2]] eqn:Hn; [done |].
  destruct (array_add (scalar_mul 2 x) noise) as [| y] eqn:Hy; [done |].
  destruct (the_module Mpandas pdo); [done |].
  destruct (mkDataFrame [("x", x); ("y", y)]) as [| df] eqn:Hdf; [done |].
  intros [= <- <-].
  assert (df = {| columns := [("x", x); ("y", y)] |}) as ->.
  { unfold mkDataFrame in Hdf.
    destruct (same_length _ _); by inversion Hdf. }
  by exists nv, size, x, g1, sv, scale, noise, g2, y.
Qed.

(** The outcome of the data cell does not depend on the Generator objects
    already on the heap: it draws from the one it allocates. *)
Lemma data_heap_independent (npo pdo n sigma : obj) (h h' : heap np) :
  fst (data np npo pdo n sigma h) = fst (data np npo pdo n sigma h').
Proof.
  unfold data, seq, lift, ret, default_rng.
  destruct (the_module Mnumpy npo); [done |].
  destruct (attr_value n) as [| nv]; [done |].
  destruct (py_int nv) as [| size]; [done |].
  rewrite !normal_on_new.
  destruct (normal np (seed_state np 42) 0 1 size) as [| [x g1]]; [done |].
  destruct (attr_value sigma) as [| sv]; [done |].
  destruct (py_float sv) as [| scale]; [done |].
  rewrite !normal_on_new.
  destruct (normal np g1 0 scale size) as [| [noise g2]]; [done |].
  destruct (array_add (scalar_mul 2 x) noise); [done |].
  destruct (the_module Mpandas pdo); [done |].
  by destruct (mkDataFrame _).
Qed.

End HeapFacts.

(** *** pandas and numpy facts *)

Lemma same_length_lookup (k : nat) (cols : list (string * ndarray))
  (key : string) (c : ndarray) :
  same_length k cols = true -> lookup_column key cols = Some c ->
  length c = k.
Proof.
  induction cols as [| [k' c'] cols IH]; simpl; [done |].
  intros [Hc Hrest]%andb_prop.
  destruct (String.eqb k' key).
  - intros [= <-]. by apply Nat.eqb_eq.
  - by apply IH.
Qed.

(** In a well-formed frame every column has [nrows] entries. *)
Lemma well_formed_column (df : DataFrame) (key : string) (c : ndarray) :
  well_formed df = true -> getitem df key = Ok c -> length c = nrows df.
Proof.
  unfold well_formed, getitem. intros Hwf.
  destruct (lookup_column key (columns df)) eqn:Hc; [| done].
  intros [= <-]. by eapply same_length_lookup.
Qed.

Lemma array_add_same_length (x y : ndarray) :
  length x = length y -> array_add x y = Ok (zip_with PrimFloat.add x y).
Proof.
  intros H. unfold array_add.
  by rewrite (proj2 (Nat.eqb_eq _ _) H).
Qed.

Lemma mkDataFrame_xy (x y : ndarray) :
  length x = length y ->
  mkDataFrame [("x", x); ("y", y)]
  = Ok {| columns := [("x", x); ("y", y)] |}.
Proof.
  intros H. unfold mkDataFrame, same_length. simpl.
  by rewrite Nat.eqb_refl, <- H, Nat.eqb_refl.
Qed.

(** *** The stand-in numpy honours the interface *)

Lemma draw_length (k : nat) (g : Z) (loc scale : float) :
  length (fst (draw k g loc scale)) = k.
Proof.
  revert g. induction k as [| k IH]; intros g; [done |].
  cbn [draw]. destruct (sum_uniform 12 g 0) as [s g1].
  specialize (IH g1). destruct (draw k g1 loc scale) as [xs g2].
  cbn [fst length] in *. by f_equal.
Qed.

Lemma lcg_numpy_ok : numpy_ok lcg_numpy.
Proof.
  split.
  - intros g loc scale size Hsize Hscale. simpl. unfold lcg_normal.
    rewrite (proj2 (Z.ltb_ge _ _) Hsize), Hscale.
    pose proof (draw_length (Z.to_nat size) g loc scale) as Hlen.
    destruct (draw (Z.to_nat size) g loc scale) as [xs g'].
    by exists xs, g'.
  - intros x y Hlen. simpl. unfold pearson_matrix.
    rewrite (proj2 (Nat.eqb_eq _ _) Hlen). eauto.
Qed.

(** *** What the data cell returns *)

Section DataFacts.

Variable np : numpy.
Hypothesis np_ok : numpy_ok np.

(** With a non-negative size and a non-negative scale both draws succeed
    and the cell returns the frame of [x] and [2.0 * x + noise]. *)
Lemma data_returns (n sigma : obj) (nv sv : num) (k : Z) (sc : float)
  (h : heap np) :
  attr_value n = Ok nv -> py_int nv = Ok k -> 0 <= k ->
  attr_value sigma = Ok sv -> py_float sv = Ok sc ->
  PrimFloat.leb 0 sc = true ->
  exists (x noise : ndarray) (g1 g2 : BitGenerator np),
    normal np (seed_state np 42) 0 1 k = Ok (x, g1) /\
    normal np g1 0 sc k = Ok (noise, g2) /\
    length x = Z.to_nat k /\ length noise = Z.to_nat k /\
    data np (OModule Mnumpy) (OModule Mpandas) n sigma h
    = (Ok (OFrame {| columns :=
                       [("x", x);
                        ("y", zip_with (fun a e => (2 * a + e)%float)
                                       x noise)] |}),
       h ++ [g2]).
Proof.
  intros Hnv Hk Hpos Hsv Hsc Hscale.
  destruct (normal_ok np np_ok (seed_state np 42) 0%float 1%float k Hpos)
    as (x & g1 & Hx & Hlx); [done |].
  destruct (normal_ok np np_ok g1 0%float sc k Hpos Hscale)
    as (noise & g2 & Hn & Hln).
  exists x, noise, g1, g2. repeat split; try done.
  unfold data, seq, lift, ret, default_rng. cbn [the_module].
  rewrite Hnv, Hk, normal_on_new, Hx, Hsv, Hsc, normal_on_new, Hn.
  rewrite array_add_same_length
    by (unfold scalar_mul; rewrite length_map; congruence).
  unfold scalar_mul. rewrite zip_with_fmap_l.
  rewrite mkDataFrame_xy; [done |].
  rewrite length_zip_with. lia.
Qed.

End DataFacts.

(* ===================================================================== *)
(** ** The data and analysis cells *)
(* ===================================================================== *)



(** C9. The x column of the frame does not depend on sigma: for a fixed
    n, two runs of the data cell with any two sigma objects (and any
    Generator objects already allocated) that return frames return the
    same x column, namely the first draw from the generator seeded with
    42. *)
Theorem x_column_does_not_depend_on_sigma
  (np : numpy) (npo pdo n sigma sigma' : obj) (h h' : heap np)
  (df df' : DataFrame) :
  fst (data np npo pdo n sigma h) = Ok (OFrame df) ->
  fst (data np npo pdo n sigma' h') = Ok (OFrame df') ->
  exists (x : ndarray) (size : Z) (g1 : BitGenerator np),
    (let* nv := attr_value n in py_int nv) = Ok size /\
    normal np (seed_state np 42) 0 1 size = Ok (x, g1) /\
    getitem df "x" = Ok x /\ getitem df' "x" = Ok x.
Proof.
  intros H1 H2.
  destruct (data np npo pdo n sigma h) as [r1 h1] eqn:E1.
  destruct (data np npo pdo n sigma' h') as [r2 h2] eqn:E2.
  simpl in H1, H2. subst r1 r2.
  apply data_inv in E1
    as (nv & size & x & g1 & sv & scale & noise & g2 & y
        & Hnv & Hsz & Hx & _ & _ & _ & _ & _ & [= ->] & _).
  apply data_inv in E2
    as (nv' & size' & x' & g1' & sv' & scale' & noise' & g2' & y'
        & Hnv' & Hsz' & Hx' & _ & _ & _ & _ & _ & [= ->] & _).
  rewrite Hnv in Hnv'. injection Hnv' as <-.
  rewrite Hsz in Hsz'. injection Hsz' as <-.
  rewrite Hx in Hx'. injection Hx' as <- <-.
  exists x, size, g1. rewrite Hnv. simpl. by repeat split.
Qed.

Lemma x_column_does_not_depend_on_sigma_witness :
  let run sigma := fst (data lcg_numpy (OModule Mnumpy) (OModule Mpandas)
                             (n_slider 50) (sigma_slider sigma) []) in
  exists (x : ndarray) (size : Z) (g1 : Z),
    (let* nv := attr_value (n_slider 50) in py_int nv) = Ok size /\
    normal lcg_numpy (seed_state lcg_numpy 42) 0 1 size = Ok (x, g1) /\
    getitem (frame_of (run 1%float)) "x" = Ok x /\
    getitem (frame_of (run 5%float)) "x" = Ok x.
Proof.
  intros run.
  apply (x_column_does_not_depend_on_sigma lcg_numpy
           (OModule Mnumpy) (OModule Mpandas) (n_slider 50)
           (sigma_slider 1) (sigma_slider 5) [] []
           (frame_of (run 1%float)) (frame_of (run 5%float)));
    vm_compute; reflexivity.
Defined.

(** On a well-formed frame with columns x and y the analysis cell returns
    row 0, column 1 of the matrix [np.corrcoef] gives for them. *)
Lemma analysis_on_frame (np : numpy) (np_ok : numpy_ok np)
  (df : DataFrame) (x y : ndarray) :
  well_formed df = true ->
  getitem df "x" = Ok x -> getitem df "y" = Ok y ->
  exists a b c d : float,
    corrcoef np x y = Ok [[a; b]; [c; d]] /\
    analysis np (OModule Mnumpy) (OFrame df) = Ok (OFloat b).
Proof.
  intros Hwf Hx Hy.
  assert (length x = length y) as Hlen.
  { rewrite (well_formed_column df "x" x), (well_formed_column df "y" y);
      done. }
  destruct (corrcoef_ok np np_ok x y Hlen) as (a & b & c & d & Hm).
  exists a, b, c, d. split; [done |].
  unfold analysis. simpl. by rewrite Hx, Hy; simpl; rewrite Hm.
Qed.



(** Re-running the two cells gives the same outcome whatever Generator
    objects earlier runs left behind. *)
Lemma rerun_same_outcome (np : numpy) (npo pdo n sigma : obj)
  (h h' : heap np) :
  fst (data_then_analysis np npo pdo n sigma h)
  = fst (data_then_analysis np npo pdo n sigma h').
Proof.
  unfold data_then_analysis, seq, lift, ret.
  pose proof (data_heap_independent np npo pdo n sigma h h') as Hd.
  destruct (data np npo pdo n sigma h) as [r1 h1].
  destruct (data np npo pdo n sigma h') as [r2 h2].
  simpl in Hd. subst r2. destruct r1 as [| df]; [done |].
  by destruct (analysis np npo df).
Qed.



(* ===================================================================== *)
(** ** The seed of the data cell *)
(* ===================================================================== *)

(** C5, as stated, fails: the samples of the data cell are not those of a
    seed the caller supplies.  On the stand-in numpy, with n = 50 and
    sigma = 1.0, the cell and its variant seeded with 7 return frames with
    different first samples. *)
Lemma seed_is_not_supplied_by_caller : ~ seed_supplied_by_caller lcg_numpy.
Proof.
  intros Hseed.
  specialize (Hseed 7 (OModule Mnumpy) (OModule Mpandas)
                (n_slider 50) (sigma_slider 1) []).
  apply (f_equal first_x) in Hseed.
  apply (f_equal (same_sample
                    (first_x (fst (data lcg_numpy (OModule Mnumpy)
                                     (OModule Mpandas) (n_slider 50)
                                     (sigma_slider 1) []))))) in Hseed.
  vm_compute in Hseed. discriminate Hseed.
Qed.

(** C5, amended. The pseudorandom generation of the data cell uses a fixed
    seed that is the constant 42 inside the cell: on every input the cell
    is its seed-taking variant at 42, the cell has no parameter besides
    np, pd, n and sigma through which a caller could supply a seed, and
    whenever it returns a frame the x column is the first draw from the
    generator state [default_rng(42)] starts from. *)
Theorem data_seed_is_the_internal_constant_42 (np : numpy)
  (npo pdo n sigma : obj) (h : heap np) :
  data np npo pdo n sigma h = data_with_caller_seed np 42 npo pdo n sigma h
  /\ params (data_cell np) = ["np"; "pd"; "n"; "sigma"]
  /\ forall df : DataFrame,
       fst (data np npo pdo n sigma h) = Ok (OFrame df) ->
       exists (x : ndarray) (size : Z) (g1 : BitGenerator np),
         normal np (seed_state np 42) 0 1 size = Ok (x, g1) /\
         getitem df "x" = Ok x.
Proof.
  split; [reflexivity |]. split; [reflexivity |].
  intros df Hrun.
  destruct (data np npo pdo n sigma h) as [r h1] eqn:E.
  simpl in Hrun. subst r.
  apply data_inv in E
    as (nv & size & x & g1 & sv & scale & noise & g2 & y
        & _ & _ & Hx & _ & _ & _ & _ & _ & [= ->] & _).
  by exists x, size, g1.
Qed.

Lemma data_seed_is_the_internal_constant_42_witness :
  let run := fst (data lcg_numpy (OModule Mnumpy) (OModule Mpandas)
                       (n_slider 50) (sigma_slider 1) []) in
  exists (x : ndarray) (size : Z) (g1 : Z),
    normal lcg_numpy (seed_state lcg_numpy 42) 0 1 size = Ok (x, g1) /\
    getitem (frame_of run) "x" = Ok x.
Proof.
  intros run.
  apply (proj2 (proj2 (data_seed_is_the_internal_constant_42 lcg_numpy
                         (OModule Mnumpy) (OModule Mpandas)
                         (n_slider 50) (sigma_slider 1) []))
           (frame_of run)).
  vm_compute. reflexivity.
Defined.

(* ===================================================================== *)
(** ** The summary cell *)
(* ===================================================================== *)

(** The first argument the f-string needs and does not get decides the
    exception. *)
Lemma summary_without_n (m sigma corr : obj) :
  raised (summary m ONone sigma corr) = true.
Proof. unfold summary, summary_md. by destruct (the_module Mmarimo m). Qed.

Lemma summary_without_sigma (m n corr : obj) :
  raised (summary m n ONone corr) = true.
Proof.
  unfold summary, summary_md.
  destruct (the_module Mmarimo m); [done |]. simpl.
  destruct (attr_value n) as [| nv]; [done |]. simpl.
  by destruct (py_int nv).
Qed.

Lemma summary_without_corr (m n sigma : obj) :
  raised (summary m n sigma ONone) = true.
Proof.
  unfold summary, summary_md.
  destruct (the_module Mmarimo m); [done |]. simpl.
  destruct (attr_value n) as [| nv]; [done |]. simpl.
  destruct (py_int nv); [done |]. simpl.
  destruct (attr_value sigma) as [| sv]; [done |]. simpl.
  by destruct (py_float sv).
Qed.

Lemma summary_n_is_attribute_error (sigma corr : obj) :
  summary mo ONone sigma corr = Raise AttributeError.
Proof. reflexivity. Qed.

Lemma summary_corr_is_type_error :
  summary mo (n_slider 500) (sigma_slider 1) ONone = Raise TypeError.
Proof. reflexivity. Qed.

(** What a summary that returns was given. *)
Lemma summary_ok_inv (m n sigma corr r : obj) :
  summary m n sigma corr = Ok r ->
  exists (sn ss : slider) (k : Z) (f : float),
    n = OSlider sn /\ py_int (value sn) = Ok k /\
    sigma = OSlider ss /\ py_float (value ss) = Ok f /\
    ((exists z, corr = OInt z) \/ (exists c, corr = OFloat c)).
Proof.
  unfold summary, summary_md.
  destruct (the_module Mmarimo m); [done |]. simpl.
  destruct n as [| | | | sn | |]; try done. simpl.
  destruct (py_int (value sn)) as [| k] eqn:Hk; [done |]. simpl.
  destruct sigma as [| | | | ss | |]; try done. simpl.
  destruct (py_float (value ss)) as [| f] eqn:Hf; [done |]. simpl.
  intros H. exists sn, ss, k, f. repeat split; try done.
  destruct corr; try done; eauto.
Qed.



(* ===================================================================== *)
(** ** The dependency graph *)
(* ===================================================================== *)

Section GraphFacts.

Context {W : Type}.
Implicit Types (c a b : cell W) (cs : list (cell W)) (q : string).

Lemma outputs_of_cons c cs :
  outputs_of (c :: cs) = returns c ++ outputs_of cs.
Proof. reflexivity. Qed.

Lemma outputs_of_app cs1 cs2 :
  outputs_of (cs1 ++ cs2) = outputs_of cs1 ++ outputs_of cs2.
Proof. unfold outputs_of. by rewrite map_app, concat_app. Qed.

Lemma elem_of_outputs_of cs q :
  q ∈ outputs_of cs <-> exists c, c ∈ cs /\ q ∈ returns c.
Proof.
  induction cs as [| c cs IH].
  - split; [by intros ?%elem_of_nil | by intros (c & ?%elem_of_nil & _)].
  - rewrite outputs_of_cons, elem_of_app, IH. split.
    + intros [Hq | (b & Hb & Hq)].
      * exists c. split; [left | done].
      * exists b. split; [by right | done].
    + intros (b & [-> | Hb]%elem_of_cons & Hq); [by left |].
      right. by exists b.
Qed.

(** The check computes the property. *)
Lemma topologicalb_sound cs : topologicalb cs = true -> topological cs.
Proof.
  induction cs as [| c cs IH]; intros Hb i j a b Hi Hj Hdep.
  - by rewrite lookup_nil in Hi.
  - simpl in Hb. apply andb_prop in Hb as [Hc Hrest].
    destruct i as [| i].
    + injection Hi as <-. exfalso.
      destruct Hdep as (q & Hqa & Hqb).
      rewrite forallb_forall in Hc.
      specialize (Hc q (proj1 (list_elem_of_In _ _) Hqa)).
      apply negb_true_iff, bool_decide_eq_false in Hc. apply Hc.
      apply elem_of_outputs_of. exists b. split; [| done].
      by eapply list_elem_of_lookup_2.
    + destruct j as [| j]; [lia |].
      simpl in Hi, Hj.
      specialize (IH Hrest i j a b Hi Hj Hdep). lia.
Qed.

(** Along a path of dependencies the position in a topological listing
    strictly decreases. *)
Lemma topological_path cs a b :
  topological cs -> tc (edge cs) a b ->
  forall i j, cs !! i = Some a -> cs !! j = Some b -> (j < i)%nat.
Proof.
  intros Htopo Hpath.
  induction Hpath as [a b (_ & _ & Hdep) | a m b (_ & Hm & Hdep) _ IH];
    intros i j Hi Hj.
  - by eapply Htopo.
  - apply list_elem_of_lookup in Hm as [k Hk].
    specialize (Htopo i k a m Hi Hk Hdep).
    specialize (IH k j Hk Hj). lia.
Qed.

(** A graph with a topological listing has no cycle. *)
Lemma topological_acyclic cs : topological cs -> acyclic cs.
Proof.
  intros Htopo c Hcyc.
  assert (c ∈ cs) as [i Hi]%list_elem_of_lookup.
  { inversion Hcyc as [? ? He | ? ? ? He _]; by destruct He. }
  pose proof (topological_path cs c c Htopo Hcyc i i Hi Hi). lia.
Qed.

(** With unique outputs a name has one producer. *)
Lemma unique_outputs_producer cs q (i j : nat) a b :
  unique_outputs cs ->
  cs !! i = Some a -> cs !! j = Some b ->
  q ∈ returns a -> q ∈ returns b -> i = j.
Proof.
  unfold unique_outputs. revert i j.
  induction cs as [| c cs IH]; intros i j Hnd Hi Hj Hqa Hqb.
  - by rewrite lookup_nil in Hi.
  - rewrite outputs_of_cons in Hnd.
    apply NoDup_app in Hnd as (_ & Hdisj & Hnd).
    destruct i as [| i], j as [| j]; simpl in Hi, Hj.
    + done.
    + injection Hi as <-. exfalso. apply (Hdisj q Hqa).
      apply elem_of_outputs_of. exists b. split; [| done].
      by eapply list_elem_of_lookup_2.
    + injection Hj as <-. exfalso. apply (Hdisj q Hqb).
      apply elem_of_outputs_of. exists a. split; [| done].
      by eapply list_elem_of_lookup_2.
    + f_equal. by eapply IH.
Qed.

End GraphFacts.

(** C6. The dependency graph over the seven cells imports, widgets, data,
    analysis, summary, plot, preview (cell A depends on cell B when a
    parameter name of A is a name B returns) has no cycle, and the order
    in which the file declares the cells is topological: every cell comes
    after every cell producing one of its inputs. *)
Theorem app_graph_is_acyclic_and_declared_in_topological_order
  (np : numpy) :
  map name (app np)
  = ["imports"; "widgets"; "data"; "analysis"; "summary"; "plot";
     "preview"]
  /\ acyclic (app np) /\ topological (app np).
Proof.
  assert (topological (app np)) as Htopo
    by (apply topologicalb_sound; reflexivity).
  split; [reflexivity |]. split; [| done].
  by apply topological_acyclic.
Qed.

(** C7. Each output name is produced by exactly one cell: the names the
    cells return are np, pd, plt (imports), n, sigma (widgets), df (data),
    corr (analysis) and fig (plot), they are pairwise distinct, and two
    cells of the table returning one name are the same entry. *)
Theorem app_output_names_have_exactly_one_producer (np : numpy) :
  map returns (app np)
  = [["np"; "pd"; "plt"]; ["n"; "sigma"]; ["df"]; ["corr"]; []; ["fig"];
     []]
  /\ unique_outputs (app np)
  /\ forall (q : string) (i j : nat) (a b : cell (heap np)),
       app np !! i = Some a -> app np !! j = Some b ->
       q ∈ returns a -> q ∈ returns b -> i = j.
Proof.
  assert (unique_outputs (app np)) as Huniq.
  { unfold unique_outputs. apply (bool_decide_unpack _). by vm_compute. }
  split; [reflexivity |]. split; [done |].
  intros q i j a b. by apply unique_outputs_producer.
Qed.

Lemma app_output_names_have_exactly_one_producer_witness :
  (2 = 2)%nat.
Proof.
  apply (proj2 (proj2 (app_output_names_have_exactly_one_producer
                         lcg_numpy))
           "df" 2%nat 2%nat (data_cell lcg_numpy) (data_cell lcg_numpy));
    try reflexivity; by apply list_elem_of_In; left.
Defined.

(* ===================================================================== *)
(** ** The scheduler *)
(* ===================================================================== *)

Section SchedulerFacts.

Context {W : Type}.
Implicit Types (c a b : cell W) (cs : list (cell W)) (q k : string).
Implicit Types (σ τ : graph_state W) (outs : gmap string slot).

(** *** Writing outputs *)

Lemma store_values_other ks vs outs q :
  q ∉ ks -> store_values ks vs outs !! q = outs !! q.
Proof.
  revert vs outs. induction ks as [| k ks IH]; intros [| v vs] outs Hq;
    simpl; try done.
  rewrite IH by set_solver. apply lookup_insert_ne. set_solver.
Qed.

Lemma store_values_failed ks vs outs q e :
  store_values ks vs outs !! q = Some (Failed e) ->
  outs !! q = Some (Failed e).
Proof.
  revert vs outs. induction ks as [| k ks IH]; intros [| v vs] outs;
    simpl; try done.
  intros H%IH. rewrite lookup_insert in H. by case_decide.
Qed.

Lemma store_failure_other e ks outs q :
  q ∉ ks -> store_failure e ks outs !! q = outs !! q.
Proof.
  induction ks as [| k ks IH]; intros Hq; simpl; [done |].
  rewrite lookup_insert_ne by set_solver. apply IH. set_solver.
Qed.

Lemma store_failure_in e ks outs q :
  q ∈ ks -> store_failure e ks outs !! q = Some (Failed e).
Proof.
  induction ks as [| k ks IH]; intros Hq; simpl; [set_solver |].
  destruct (decide (k = q)) as [-> | Hne].
  - apply lookup_insert_eq.
  - rewrite lookup_insert_ne by done. apply IH. set_solver.
Qed.

Lemma store_failure_failed e ks outs q e' :
  store_failure e ks outs !! q = Some (Failed e') ->
  q ∈ ks \/ outs !! q = Some (Failed e').
Proof.
  destruct (decide (q ∈ ks)) as [Hin | Hout]; [by left |].
  rewrite store_failure_other by done. by right.
Qed.

(** *** Resolving inputs *)

Lemma resolve_raise outs ps e :
  resolve outs ps = Raise e ->
  exists q, q ∈ ps /\ outs !! q = Some (Failed e).
Proof.
  induction ps as [| p ps IH]; simpl; [done |].
  destruct (outs !! p) as [[v | e'] |] eqn:Hp.
  - destruct (resolve outs ps); [| done].
    intros [= <-]. destruct IH as (q & Hq & Hf); [done |].
    exists q. split; [set_solver | done].
  - intros [= <-]. exists p. split; [set_solver | done].
  - destruct (resolve outs ps); [| done].
    intros [= <-]. destruct IH as (q & Hq & Hf); [done |].
    exists q. split; [set_solver | done].
Qed.

Lemma resolve_failed_input outs ps q e :
  q ∈ ps -> outs !! q = Some (Failed e) ->
  exists e', resolve outs ps = Raise e'.
Proof.
  induction ps as [| p ps IH]; intros Hq Hf; [set_solver |].
  simpl. destruct (decide (p = q)) as [-> | Hne].
  - rewrite Hf. eauto.
  - destruct IH as [e' He']; [set_solver | done |].
    destruct (outs !! p) as [[v | e''] |]; [| eauto |];
      rewrite He'; simpl; eauto.
Qed.

(** *** One cell *)

Lemma settle_not_stale σ c : is_stale σ c = false -> settle σ c = σ.
Proof. unfold settle. by intros ->. Qed.

Lemma fail_status c e w σ k :
  status (fail c e w σ) !! k
  = if decide (name c = k) then Some Errored else status σ !! k.
Proof. simpl. apply lookup_insert. Qed.

(** The two ways a stale cell is settled. *)
Lemma settle_stale σ c :
  is_stale σ c = true ->
  (exists e w,
      settle σ c = fail c e w σ /\
      ((exists q, q ∈ params c /\ outputs σ !! q = Some (Failed e)) \/
       (exists args, body c args (world σ) = (Raise e, w))))
  \/ (exists args vals w,
         resolve (outputs σ) (params c) = Ok args /\
         body c args (world σ) = (Ok vals, w) /\
         settle σ c
         = {| status := <[name c := Fresh]> (status σ);
              outputs := store_values (returns c) vals (outputs σ);
              world := w;
              recomputed := recomputed σ ++ [name c] |}).
Proof.
  intros Hst. unfold settle. rewrite Hst.
  destruct (resolve (outputs σ) (params c)) as [e | args] eqn:Hres.
  - left. exists e, (world σ). split; [done |].
    left. by apply resolve_raise.
  - destruct (body c args (world σ)) as [[e | vals] w] eqn:Hbody.
    + left. exists e, w. split; [done |]. right. by exists args.
    + right. by exists args, vals, w.
Qed.

Lemma settle_status_other σ c k :
  k <> name c -> status (settle σ c) !! k = status σ !! k.
Proof.
  intros Hk. destruct (is_stale σ c) eqn:Hst.
  - destruct (settle_stale σ c Hst)
      as [(e & w & -> & _) | (args & vals & w & _ & _ & ->)]; simpl;
      by rewrite lookup_insert_ne.
  - by rewrite settle_not_stale.
Qed.

Lemma settle_outputs_other σ c q :
  q ∉ returns c -> outputs (settle σ c) !! q = outputs σ !! q.
Proof.
  intros Hq. destruct (is_stale σ c) eqn:Hst.
  - destruct (settle_stale σ c Hst)
      as [(e & w & -> & _) | (args & vals & w & _ & _ & ->)]; simpl.
    + by apply store_failure_other.
    + by apply store_values_other.
  - by rewrite settle_not_stale.
Qed.

(** A stale cell ends fresh or errored. *)
Lemma settle_stale_status σ c :
  is_stale σ c = true ->
  status (settle σ c) !! name c = Some Fresh \/
  status (settle σ c) !! name c = Some Errored.
Proof.
  intros Hst.
  destruct (settle_stale σ c Hst)
    as [(e & w & -> & _) | (args & vals & w & _ & _ & ->)]; simpl;
    rewrite lookup_insert_eq; auto.
Qed.

(** Settling a cell makes no cell stale. *)
Lemma settle_stale_mono σ c a :
  is_stale (settle σ c) a = true -> is_stale σ a = true.
Proof.
  destruct (decide (name a = name c)) as [Heq | Hne].
  - destruct (is_stale σ c) eqn:Hst.
    + unfold is_stale at 1. rewrite Heq.
      by destruct (settle_stale_status σ c Hst) as [-> | ->].
    + by rewrite settle_not_stale.
  - unfold is_stale. by rewrite settle_status_other.
Qed.

Lemma settle_recomputed σ c :
  recomputed (settle σ c)
  = recomputed σ ++ (if is_stale σ c then [name c] else []).
Proof.
  destruct (is_stale σ c) eqn:Hst.
  - by destruct (settle_stale σ c Hst)
      as [(e & w & -> & _) | (args & vals & w & _ & _ & ->)].
  - rewrite settle_not_stale by done. by rewrite app_nil_r.
Qed.

(** *** A pass *)

Lemma evaluate_cons c cs σ :
  evaluate (c :: cs) σ = evaluate cs (settle σ c).
Proof. reflexivity. Qed.

Lemma evaluate_app cs1 cs2 σ :
  evaluate (cs1 ++ cs2) σ = evaluate cs2 (evaluate cs1 σ).
Proof. apply foldl_app. Qed.

Lemma evaluate_status_other cs σ k :
  k ∉ map name cs -> status (evaluate cs σ) !! k = status σ !! k.
Proof.
  revert σ. induction cs as [| c cs IH]; intros σ Hk; [done |].
  rewrite evaluate_cons, IH by set_solver.
  apply settle_status_other. set_solver.
Qed.

Lemma evaluate_outputs_other cs σ q :
  q ∉ outputs_of cs -> outputs (evaluate cs σ) !! q = outputs σ !! q.
Proof.
  revert σ. induction cs as [| c cs IH]; intros σ Hq; [done |].
  rewrite outputs_of_cons in Hq.
  rewrite evaluate_cons, IH by set_solver.
  apply settle_outputs_other. set_solver.
Qed.

(** Cells that are not stale keep their state... *)
Lemma evaluate_status_frame cs σ k :
  (forall c, c ∈ cs -> name c = k -> is_stale σ c = false) ->
  status (evaluate cs σ) !! k = status σ !! k.
Proof.
  revert σ. induction cs as [| c cs IH]; intros σ Hk; [done |].
  rewrite evaluate_cons.
  destruct (decide (name c = k)) as [Heq | Hne].
  - rewrite settle_not_stale by (apply Hk; [left | done]).
    apply IH. intros d Hd. apply Hk. by right.
  - rewrite IH, settle_status_other; [done.. |].
    intros d Hd Hdk. destruct (is_stale (settle σ c) d) eqn:E; [| done].
    apply settle_stale_mono in E. rewrite Hk in E; [done | by right | done].
Qed.

(** ... and the outputs of cells that are not stale are not written. *)
Lemma evaluate_outputs_frame cs σ q :
  (forall c, c ∈ cs -> q ∈ returns c -> is_stale σ c = false) ->
  outputs (evaluate cs σ) !! q = outputs σ !! q.
Proof.
  revert σ. induction cs as [| c cs IH]; intros σ Hq; [done |].
  rewrite evaluate_cons.
  destruct (decide (q ∈ returns c)) as [Hin | Hout].
  - rewrite settle_not_stale by (apply Hq; [left | done]).
    apply IH. intros d Hd. apply Hq. by right.
  - rewrite IH, settle_outputs_other; [done.. |].
    intros d Hd Hdq. destruct (is_stale (settle σ c) d) eqn:E; [| done].
    apply settle_stale_mono in E. rewrite Hq in E; [done | by right | done].
Qed.

(** The pass settles exactly the stale cells, once each, in the order of
    the listing. *)
Lemma evaluate_recomputed cs σ :
  NoDup (map name cs) ->
  recomputed (evaluate cs σ)
  = recomputed σ ++ map name (List.filter (is_stale σ) cs).
Proof.
  revert σ. induction cs as [| c cs IH]; intros σ Hnd.
  - simpl. by rewrite app_nil_r.
  - simpl in Hnd. apply NoDup_cons in Hnd as [Hc Hnd].
    rewrite evaluate_cons, IH, settle_recomputed by done.
    rewrite <- app_assoc. f_equal.
    assert (List.filter (is_stale (settle σ c)) cs
            = List.filter (is_stale σ) cs) as ->.
    { apply filter_ext_in. intros d Hd%list_elem_of_In.
      unfold is_stale. rewrite settle_status_other; [done |].
      intros Heq. apply Hc. rewrite <- Heq.
      apply list_elem_of_fmap. by exists d. }
    simpl. by destruct (is_stale σ c).
Qed.

End SchedulerFacts.

(** *** Fault containment *)

Section Containment.

Context {W : Type}.
Implicit Types (c a b : cell W) (q k : string).
Implicit Types (τ : graph_state W).

Variable cs : list (cell W).
Variable σ : graph_state W.

Hypothesis names_distinct : NoDup (map name cs).

Lemma name_inj a b : a ∈ cs -> b ∈ cs -> name a = name b -> a = b.
Proof.
  intros [i Hi]%list_elem_of_lookup [j Hj]%list_elem_of_lookup Heq.
  assert (i = j) as ->.
  { eapply (NoDup_lookup (map name cs)); [done | |].
    - by rewrite list_lookup_fmap, Hi.
    - by rewrite list_lookup_fmap, Hj, Heq. }
  congruence.
Qed.

(** Where a cell stands in the pass: the cells before it leave its state
    alone, and the cells after it leave alone what it settled. *)
Lemma pass_at cs1 c cs2 :
  cs = cs1 ++ c :: cs2 ->
  is_stale (evaluate cs1 σ) c = is_stale σ c /\
  status (evaluate cs σ) !! name c
  = status (settle (evaluate cs1 σ) c) !! name c.
Proof.
  intros Hcs. rewrite Hcs in names_distinct.
  rewrite map_app in names_distinct. simpl in names_distinct.
  apply NoDup_app in names_distinct as (_ & Hdisj & [Hc2 _]%NoDup_cons).
  assert (name c ∉ map name cs1) as Hc1.
  { intros Hin. apply (Hdisj _ Hin). by left. }
  split.
  - unfold is_stale. by rewrite evaluate_status_other.
  - rewrite Hcs, evaluate_app, evaluate_cons.
    by rewrite evaluate_status_other.
Qed.

Hypothesis outputs_distinct : unique_outputs cs.

Lemma pass_outputs_at cs1 c cs2 q :
  cs = cs1 ++ c :: cs2 -> q ∈ returns c ->
  outputs (evaluate cs σ) !! q
  = outputs (settle (evaluate cs1 σ) c) !! q.
Proof.
  intros Hcs Hq. unfold unique_outputs in outputs_distinct.
  rewrite Hcs, outputs_of_app, outputs_of_cons in outputs_distinct.
  apply NoDup_app in outputs_distinct as (_ & _ & Hnd).
  apply NoDup_app in Hnd as (_ & Hdisj & _).
  rewrite Hcs, evaluate_app, evaluate_cons.
  apply evaluate_outputs_other. by apply Hdisj.
Qed.

Lemma pass_inputs_at cs1 c cs2 q :
  cs = cs1 ++ c :: cs2 -> q ∈ outputs_of cs1 ->
  outputs (evaluate cs σ) !! q = outputs (evaluate cs1 σ) !! q.
Proof.
  intros Hcs Hq. unfold unique_outputs in outputs_distinct.
  rewrite Hcs, outputs_of_app in outputs_distinct.
  apply NoDup_app in outputs_distinct as (_ & Hdisj & _).
  rewrite Hcs, evaluate_app.
  apply evaluate_outputs_other. by apply Hdisj.
Qed.

(** A stale cell that [settle] fails is failed. *)
Lemma failed_at cs1 c cs2 e w :
  cs = cs1 ++ c :: cs2 -> is_stale σ c = true ->
  settle (evaluate cs1 σ) c = fail c e w (evaluate cs1 σ) ->
  failed cs σ c.
Proof.
  intros Hcs Hst Hfail. split; [done |].
  destruct (pass_at cs1 c cs2 Hcs) as [_ Hstatus]. split.
  - rewrite Hstatus, Hfail, fail_status. by case_decide.
  - intros q Hq. exists e.
    rewrite (pass_outputs_at cs1 c cs2 q Hcs Hq), Hfail. simpl.
    by apply store_failure_in.
Qed.

Hypothesis listing_topological : topological cs.
Hypothesis staleness_closed : stale_closed cs σ.

(** An error crosses one dependency edge. *)
Lemma failed_edge a b : edge cs a b -> failed cs σ b -> failed cs σ a.
Proof.
  intros (Ha & Hb & Hdep) (Hbst & _ & Hbout).
  assert (is_stale σ a = true) as Hast by by eapply staleness_closed.
  destruct (list_elem_of_split _ _ Ha) as (cs1 & cs2 & Hcs).
  destruct (pass_at cs1 a cs2 Hcs) as [Hstale _].
  rewrite Hast in Hstale.
  assert (b ∈ cs1) as Hb1.
  { apply list_elem_of_lookup in Hb as [j Hj].
    assert (cs !! length cs1 = Some a) as Hi
      by (rewrite Hcs; apply list_lookup_middle; done).
    pose proof (listing_topological _ _ _ _ Hi Hj Hdep) as Hlt.
    rewrite Hcs, lookup_app_l in Hj by done.
    by eapply list_elem_of_lookup_2. }
  destruct Hdep as (q & Hqa & Hqb).
  destruct (Hbout q Hqb) as [e He].
  rewrite (pass_inputs_at cs1 a cs2 q Hcs) in He
    by (apply elem_of_outputs_of; eauto).
  destruct (settle_stale _ _ Hstale)
    as [(e' & w & Hfail & _) | (args & vals & w & Hres & _ & _)].
  - by eapply failed_at.
  - destruct (resolve_failed_input _ _ _ _ Hqa He) as [e' He'].
    congruence.
Qed.

Lemma failed_downstream a b : tc (edge cs) a b -> failed cs σ b -> failed cs σ a.
Proof.
  induction 1 as [a b Hedge | a m b Hedge _ IH]; intros Hb.
  - by eapply failed_edge.
  - eapply failed_edge; [done |]. by apply IH.
Qed.

Variable X : cell W.

Hypothesis X_in_graph : X ∈ cs.
Hypothesis X_stale : is_stale σ X = true.
Hypothesis X_raises : always_raises X.

Lemma failed_source : failed cs σ X.
Proof.
  destruct (list_elem_of_split _ _ X_in_graph) as (cs1 & cs2 & Hcs).
  destruct (pass_at cs1 X cs2 Hcs) as [Hstale _].
  rewrite X_stale in Hstale.
  destruct (settle_stale _ _ Hstale)
    as [(e' & w & Hfail & _) | (args & vals & w & _ & Hbody & _)].
  - by eapply failed_at.
  - destruct (X_raises args (world (evaluate cs1 σ))) as (e & w' & He).
    congruence.
Qed.

Hypothesis others_return :
  forall c, c ∈ cs -> name c <> name X -> never_raises c.
Hypothesis clean_start : no_failure σ.

(** Errors stay traced to the failing cell through the pass. *)
Lemma traced_settle τ c : c ∈ cs -> traced cs X τ -> traced cs X (settle τ c).
Proof.
  intros Hc Htr q e Hq.
  destruct (is_stale τ c) eqn:Hst;
    [| rewrite settle_not_stale in Hq by done; by apply (Htr q e)].
  destruct (settle_stale τ c Hst)
    as [(e' & w & Hfail & Hwhy) | (args & vals & w & _ & _ & Hok)].
  - rewrite Hfail in Hq. simpl in Hq.
    apply store_failure_failed in Hq as [Hin | Hold]; [| by apply (Htr q e)].
    exists c. split; [done |]. split; [done |].
    destruct Hwhy as [(p & Hp & Hpf) | (args & Hbody)].
    + destruct (Htr p e' Hpf) as (d & Hd & Hpd & Hdx).
      assert (edge cs c d) as Hedge by (repeat split; [done.. | by exists p]).
      right. destruct Hdx as [-> | Hdx]; [by apply tc_once |].
      by eapply tc_l.
    + left. apply name_inj; [done.. |].
      destruct (decide (name c = name X)) as [Heq | Hne]; [done |].
      destruct (others_return c Hc Hne args (world τ)) as (vs & w' & Hv).
      congruence.
  - rewrite Hok in Hq. simpl in Hq.
    apply store_values_failed in Hq. by apply (Htr q e).
Qed.

Lemma traced_evaluate cs1 τ :
  (forall c, c ∈ cs1 -> c ∈ cs) ->
  traced cs X τ -> traced cs X (evaluate cs1 τ).
Proof.
  revert τ. induction cs1 as [| c cs1 IH]; intros τ Hsub Htr; [done |].
  rewrite evaluate_cons. apply IH.
  - intros d Hd. apply Hsub. by right.
  - apply traced_settle; [| done]. apply Hsub. by left.
Qed.

(** A stale cell that is neither the failing cell nor downstream of it
    ends fresh. *)
Lemma fresh_elsewhere Y :
  Y ∈ cs -> is_stale σ Y = true -> name Y <> name X ->
  ~ tc (edge cs) Y X ->
  status (evaluate cs σ) !! name Y = Some Fresh.
Proof.
  intros HY Hst Hne Hindep.
  destruct (list_elem_of_split _ _ HY) as (cs1 & cs2 & Hcs).
  destruct (pass_at cs1 Y cs2 Hcs) as [Hstale ->].
  rewrite Hst in Hstale.
  assert (traced cs X (evaluate cs1 σ)) as Htr.
  { apply traced_evaluate.
    - intros c Hc. rewrite Hcs. apply elem_of_app. by left.
    - intros q e Hq. by destruct (clean_start q e). }
  destruct (settle_stale _ _ Hstale)
    as [(e & w & Hfail & Hwhy) | (args & vals & w & _ & _ & ->)].
  - exfalso. destruct Hwhy as [(p & Hp & Hpf) | (args & Hbody)].
    + destruct (Htr p e Hpf) as (d & Hd & Hpd & Hdx).
      assert (edge cs Y d) as Hedge by (repeat split; [done.. | by exists p]).
      apply Hindep. destruct Hdx as [-> | Hdx]; [by apply tc_once |].
      by eapply tc_l.
    + destruct (others_return Y HY Hne args (world (evaluate cs1 σ)))
        as (vs & w' & Hv).
      congruence.
  - simpl. apply lookup_insert_eq.
Qed.

End Containment.


Lemma small_graph_topological : topological small_graph.
Proof. apply topologicalb_sound. reflexivity. Qed.


(** The run of the small graph: [boom] and [after] errored, [side] fresh
    with its value cached. *)
Example small_graph_run :
  let σ' := evaluate small_graph small_start in
  (status σ' !! "boom", status σ' !! "side", status σ' !! "after")
  = (Some Errored, Some Fresh, Some Errored)
  /\ outputs σ' !! "v" = Some (Value (OInt 1))
  /\ outputs σ' !! "u" = Some (Failed ValueError)
  /\ outputs σ' !! "t" = Some (Failed ValueError)
  /\ recomputed σ' = ["boom"; "side"; "after"].
Proof. by vm_compute. Qed.

(** *** Change propagation *)

Section NotifyFacts.

Context {W : Type}.
Implicit Types (c : cell W) (cs : list (cell W)) (σ : graph_state W).

Lemma mark_stale_lookup (ks : list string) (st : gmap string cell_state)
  (k : string) :
  mark_stale ks st !! k
  = if decide (k ∈ ks) then Some Stale else st !! k.
Proof.
  induction ks as [| k' ks IH]; cbn [mark_stale foldr].
  - destruct (decide (k ∈ [])) as [H | H]; [by apply elem_of_nil in H | done].
  - fold (mark_stale ks st). rewrite lookup_insert, IH.
    destruct (decide (k' = k)) as [-> | Hne].
    + destruct (decide (k ∈ k :: ks)) as [H | H]; [done |].
      exfalso. apply H. by left.
    + destruct (decide (k ∈ ks)) as [H1 | H1];
        destruct (decide (k ∈ k' :: ks)) as [H2 | H2]; try done.
      * exfalso. apply H2. by right.
      * apply elem_of_cons in H2 as [-> | H2]; done.
Qed.

(** After [notify] a cell is stale when it is affected or was stale. *)
Lemma notify_is_stale cs (changed : list string) σ c :
  is_stale (notify cs changed σ) c
  = bool_decide (name c ∈ affected changed cs) || is_stale σ c.
Proof.
  unfold is_stale, notify. simpl. rewrite mark_stale_lookup.
  case_decide as H.
  - by rewrite bool_decide_eq_true_2.
  - by rewrite bool_decide_eq_false_2.
Qed.

(** The one-pass [affected] computes the forward closure. *)

Lemma downstream_of_cons (dirty : list string) c0 cs c :
  downstream_of dirty cs c -> downstream_of dirty (c0 :: cs) c.
Proof.
  induction 1 as [c q Hc Hq Hd | c d q Hc _ IH Hq Hqd].
  - eapply reads_changed; [by right | done..].
  - eapply reads_downstream; [by right | done..].
Qed.

Lemma downstream_of_shift (dirty : list string) c0 cs c (q0 : string) :
  q0 ∈ params c0 -> q0 ∈ dirty ->
  downstream_of (returns c0 ++ dirty) cs c ->
  downstream_of dirty (c0 :: cs) c.
Proof.
  intros Hq0 Hd0.
  assert (downstream_of dirty (c0 :: cs) c0) as H0
    by (eapply reads_changed; [by left | done..]).
  induction 1 as [c q Hc Hq Hd | c d q Hc _ IH Hq Hqd].
  - apply elem_of_app in Hd as [Hd | Hd].
    + eapply reads_downstream; [by right | done..].
    + eapply reads_changed; [by right | done..].
  - eapply reads_downstream; [by right | done..].
Qed.

Lemma hits_dirty (dirty : list string) c :
  existsb (fun q => bool_decide (q ∈ dirty)) (params c) = true <->
  exists q, q ∈ params c /\ q ∈ dirty.
Proof.
  rewrite existsb_exists. split.
  - intros (q & Hq & Hd). exists q.
    split; [by apply list_elem_of_In | by apply bool_decide_eq_true in Hd].
  - intros (q & Hq & Hd). exists q.
    split; [by apply list_elem_of_In | by apply bool_decide_eq_true].
Qed.

Lemma affected_sound cs (dirty : list string) (k : string) :
  k ∈ affected dirty cs ->
  exists c, c ∈ cs /\ name c = k /\ downstream_of dirty cs c.
Proof.
  revert dirty. induction cs as [| c0 cs IH]; intros dirty Hk; simpl in Hk.
  - by apply elem_of_nil in Hk.
  - destruct (existsb _ (params c0)) eqn:Hhit.
    + apply hits_dirty in Hhit as (q0 & Hq0 & Hd0).
      apply elem_of_cons in Hk as [-> | Hk].
      * exists c0. split; [by left |]. split; [done |].
        eapply reads_changed; [by left | done..].
      * destruct (IH _ Hk) as (c & Hc & Hname & Hflow).
        exists c. split; [by right |]. split; [done |].
        by eapply downstream_of_shift.
    + destruct (IH _ Hk) as (c & Hc & Hname & Hflow).
      exists c. split; [by right |]. split; [done |].
      by apply downstream_of_cons.
Qed.

Lemma topological_tail c0 cs : topological (c0 :: cs) -> topological cs.
Proof.
  intros Htopo i j a b Hi Hj Hdep.
  specialize (Htopo (S i) (S j) a b Hi Hj Hdep). lia.
Qed.

Lemma topological_head c0 cs d :
  topological (c0 :: cs) -> d ∈ c0 :: cs -> ~ depends_on c0 d.
Proof.
  intros Htopo [j Hj]%list_elem_of_lookup Hdep.
  specialize (Htopo 0%nat j c0 d eq_refl Hj Hdep). lia.
Qed.

Lemma affected_complete cs (dirty : list string) c :
  topological cs -> downstream_of dirty cs c ->
  name c ∈ affected dirty cs.
Proof.
  revert dirty. induction cs as [| c0 cs IH]; intros dirty Htopo Hflow.
  - destruct Hflow as [c q Hc _ _ | c d q Hc _ _ _];
      by apply elem_of_nil in Hc.
  - simpl. destruct (existsb _ (params c0)) eqn:Hhit.
    + assert (c = c0 \/
              (c ∈ cs /\ downstream_of (returns c0 ++ dirty) cs c)) as Hc.
      { clear IH.
        induction Hflow as [c q Hc Hq Hd | c d q Hc _ IHd Hq Hqd].
        - apply elem_of_cons in Hc as [-> | Hc]; [by left | right].
          split; [done |].
          apply (reads_changed _ _ c q); [done.. |].
          apply elem_of_app. by right.
        - apply elem_of_cons in Hc as [-> | Hc]; [by left | right].
          split; [done |]. destruct IHd as [-> | [Hd Hfd]].
          + apply (reads_changed _ _ c q); [done.. |].
            apply elem_of_app. by left.
          + by apply (reads_downstream _ _ c d q). }
      destruct Hc as [-> | [Hc Hfc]]; [by left | right].
      apply IH; [| done]. by eapply topological_tail.
    + assert (c ∈ cs /\ downstream_of dirty cs c) as [Hc Hfc].
      { clear IH.
        induction Hflow as [c q Hc Hq Hd | c d q Hc _ IHd Hq Hqd].
        - apply elem_of_cons in Hc as [-> | Hc].
          + assert (existsb (fun q => bool_decide (q ∈ dirty)) (params c0)
                    = true) as Habs by (apply hits_dirty; eauto).
            congruence.
          + split; [done |]. by eapply reads_changed.
        - destruct IHd as [Hd Hfd].
          apply elem_of_cons in Hc as [-> | Hc].
          + exfalso. apply (topological_head c0 cs d Htopo); [by right |].
            by exists q.
          + split; [done |]. by eapply reads_downstream. }
      apply IH; [| done]. by eapply topological_tail.
Qed.

(** From a settled state, [notify] marks stale exactly the forward closure
    of the change. *)
Lemma notify_marks_forward_closure cs (changed : list string) σ c :
  NoDup (map name cs) -> topological cs -> settled cs σ -> c ∈ cs ->
  is_stale (notify cs changed σ) c = true <-> downstream_of changed cs c.
Proof.
  intros Hnames Htopo Hset Hc.
  rewrite notify_is_stale, (Hset c Hc), orb_false_r, bool_decide_eq_true.
  split.
  - intros (c' & Hc' & Hname & Hflow)%affected_sound.
    by rewrite <- (name_inj cs Hnames c' c Hc' Hc Hname).
  - by apply affected_complete.
Qed.

(** So the staleness [notify] leaves is closed downstream. *)
Lemma notify_stale_closed cs (changed : list string) σ :
  NoDup (map name cs) -> topological cs -> settled cs σ ->
  stale_closed cs (notify cs changed σ).
Proof.
  intros Hnames Htopo Hset a b Ha Hb (q & Hqa & Hqb) Hst.
  apply notify_marks_forward_closure in Hst; [| done..].
  apply notify_marks_forward_closure; [done.. |].
  by eapply reads_downstream.
Qed.

End NotifyFacts.

(** In the two-cell scenario of the specification a change of sigma
    affects the data and analysis cells, and these only. *)
Example scenario_sigma_affects_data_and_analysis (np : numpy) :
  affected ["sigma"] (scenario np) = ["data"; "analysis"].
Proof. reflexivity. Qed.


(** The cells of the notebook that a change of sigma leaves alone. *)
Lemma app_upstream_of_sigma_not_stale (np : numpy)
  (σ : graph_state (heap np)) (c : cell (heap np)) :
  settled (app np) σ -> c ∈ app np ->
  name c = "imports" \/ name c = "widgets" ->
  is_stale (notify (app np) ["sigma"] σ) c = false.
Proof.
  intros Hset Hc Hname. rewrite notify_is_stale, (Hset c Hc), orb_false_r.
  apply bool_decide_eq_false.
  change (affected ["sigma"] (app np))
    with ["data"; "analysis"; "summary"; "plot"; "preview"].
  destruct Hname as [-> | ->]; set_solver.
Qed.


Lemma sigma_moved_settled : settled (app lcg_numpy) sigma_moved.
Proof.
  intros c Hc. unfold app in Hc.
  repeat (apply elem_of_cons in Hc as [-> | Hc]);
    try (vm_compute; reflexivity).
  by apply elem_of_nil in Hc.
Qed.


(* ===================================================================== *)
(** ** Further properties of the cells *)
(* ===================================================================== *)

(** *** The data cell *)

(** X1. Whatever numpy the cell runs against, even one whose draws have
    the wrong length, a run of the data cell that returns has returned a
    frame with exactly the columns "x" then "y", both of the length of the
    first draw: the cell never hands a ragged or differently named frame
    downstream. *)
Theorem data_returns_only_well_formed_xy_frames (np : numpy)
  (npo pdo n sigma r : obj) (h : heap np) :
  fst (data np npo pdo n sigma h) = Ok r ->
  exists (df : DataFrame) (x y : ndarray),
    r = OFrame df /\
    columns df = [("x", x); ("y", y)] /\
    length y = length x /\
    nrows df = length x /\
    well_formed df = true.
Proof.
  intros Hrun.
  destruct (data np npo pdo n sigma h) as [r' h'] eqn:E.
  simpl in Hrun. subst r'.
  apply data_inv in E
    as (nv & size & x & g1 & sv & scale & noise & g2 & y
        & _ & _ & _ & _ & _ & _ & _ & Hdf & -> & _).
  unfold mkDataFrame in Hdf.
  destruct (same_length (length x) [("x", x); ("y", y)]) eqn:Hlen;
    [| done].
  exists {| columns := [("x", x); ("y", y)] |}, x, y.
  repeat split; try done.
  unfold same_length in Hlen. cbn [forallb snd] in Hlen.
  apply andb_prop in Hlen as [_ [Hy _]%andb_prop].
  by apply Nat.eqb_eq.
Qed.

Lemma data_returns_only_well_formed_xy_frames_witness :
  let r := OFrame (frame_of (fst (data lcg_numpy (OModule Mnumpy)
                                    (OModule Mpandas) (n_slider 50)
                                    (sigma_slider 1) []))) in
  exists (df : DataFrame) (x y : ndarray),
    r = OFrame df /\
    columns df = [("x", x); ("y", y)] /\
    length y = length x /\
    nrows df = length x /\
    well_formed df = true.
Proof.
  intros r.
  apply (data_returns_only_well_formed_xy_frames lcg_numpy
           (OModule Mnumpy) (OModule Mpandas) (n_slider 50)
           (sigma_slider 1) r []).
  vm_compute. reflexivity.
Defined.

(** X2. The data cell draws from a Generator of its own: on every input,
    and whether it returns or raises, the Generator objects that existed
    before the run are left exactly as they were, and the run allocates
    one new Generator (none when [np] is not the numpy module). *)
Theorem data_leaves_existing_generators_untouched (np : numpy)
  (npo pdo n sigma : obj) (h : heap np) :
  exists l : heap np,
    snd (data np npo pdo n sigma h) = h ++ l /\
    (length l <= 1)%nat /\
    (length l = 0%nat <-> the_module Mnumpy npo = Raise AttributeError).
Proof.
  assert (forall g : BitGenerator np,
            exists l : heap np,
              h ++ [g] = h ++ l /\ (length l <= 1)%nat /\
              (length l = 0%nat <-> Ok tt = Raise AttributeError :> result unit))
    as Hone.
  { intros g. exists [g]. split; [done |]. split; [simpl; lia |].
    split; [done | discriminate]. }
  unfold data, seq, lift, ret, default_rng.
  destruct (the_module Mnumpy npo) as [e | []] eqn:Hnp.
  { assert (e = AttributeError) as ->.
    { destruct npo as [| | | m | | |]; try destruct m;
        cbn in Hnp; congruence. }
    exists []. rewrite app_nil_r.
    split; [done |]. split; [simpl; lia | done]. }
  destruct (attr_value n) as [| nv]; [apply Hone |].
  destruct (py_int nv) as [| size]; [apply Hone |].
  rewrite normal_on_new.
  destruct (normal np (seed_state np 42) 0 1 size) as [| [x g1]];
    [apply Hone |].
  destruct (attr_value sigma) as [| sv]; [apply Hone |].
  destruct (py_float sv) as [| scale]; [apply Hone |].
  rewrite normal_on_new.
  destruct (normal np g1 0 scale size) as [| [noise g2]]; [apply Hone |].
  destruct (array_add (scalar_mul 2 x) noise); [apply Hone |].
  destruct (the_module Mpandas pdo); [apply Hone |].
  destruct (mkDataFrame _); apply Hone.
Qed.

(** X3. The data cell needs sliders: when [np] is the numpy module and n
    is not an object with a [.value] (None included), the cell raises
    AttributeError before anything is drawn: the Generator it allocated is
    still in the state [default_rng(42)] starts from, and sigma and pd are
    never looked at. *)
Theorem data_without_n_slider_raises_before_drawing (np : numpy)
  (pdo n sigma : obj) (h : heap np) :
  (forall s : slider, n <> OSlider s) ->
  data np (OModule Mnumpy) pdo n sigma h
  = (Raise AttributeError, h ++ [seed_state np 42]).
Proof.
  intros Hn. unfold data, seq, lift, ret, default_rng. cbn [the_module].
  destruct n as [| | | | s | |]; try done. by destruct (Hn s).
Qed.

Lemma data_without_n_slider_raises_before_drawing_witness :
  data lcg_numpy (OModule Mnumpy) (OModule Mpandas) ONone
       (sigma_slider 1) []
  = (Raise AttributeError, [42]).
Proof.
  apply (data_without_n_slider_raises_before_drawing lcg_numpy
           (OModule Mpandas) ONone (sigma_slider 1) []).
  intros s. discriminate.
Defined.

(** X4. An exception raised by numpy's first draw leaves the data cell
    unchanged: the cell raises that same exception, whatever sigma and pd
    are, and the Generator is not advanced. *)
Theorem data_propagates_the_error_of_the_first_draw (np : numpy)
  (pdo n sigma : obj) (nv : num) (size : Z) (e : exn) (h : heap np) :
  attr_value n = Ok nv -> py_int nv = Ok size ->
  normal np (seed_state np 42) 0 1 size = Raise e ->
  data np (OModule Mnumpy) pdo n sigma h
  = (Raise e, h ++ [seed_state np 42]).
Proof.
  intros Hnv Hsize Hdraw.
  unfold data, seq, lift, ret, default_rng. cbn [the_module].
  by rewrite Hnv, Hsize, normal_on_new, Hdraw.
Qed.

Lemma data_propagates_the_error_of_the_first_draw_witness :
  data lcg_numpy (OModule Mnumpy) (OModule Mpandas) (n_slider (-5))
       (sigma_slider 1) []
  = (Raise ValueError, [42]).
Proof.
  apply (data_propagates_the_error_of_the_first_draw lcg_numpy
           (OModule Mpandas) (n_slider (-5)) (sigma_slider 1)
           (NInt (-5)) (-5) ValueError []); reflexivity.
Defined.

(** *** The analysis cell *)

(** X5. What the analysis cell raises without reaching numpy: KeyError
    when the frame lacks column "x" or column "y", TypeError when [df] is
    not a frame (None included), and AttributeError, before [df] is looked
    at, when [np] is not the numpy module. *)
Theorem analysis_error_behaviour (np : numpy) :
  (forall df : DataFrame,
     lookup_column "x" (columns df) = None \/
     lookup_column "y" (columns df) = None ->
     analysis np (OModule Mnumpy) (OFrame df) = Raise KeyError) /\
  (forall o : obj,
     (forall df : DataFrame, o <> OFrame df) ->
     analysis np (OModule Mnumpy) o = Raise TypeError) /\
  (forall npo o : obj,
     npo <> OModule Mnumpy -> analysis np npo o = Raise AttributeError).
Proof.
  split; [| split].
  - intros df Hmissing. unfold analysis, subscript, getitem.
    cbn [the_module bind].
    destruct (lookup_column "x" (columns df)) as [x |]; [| done].
    destruct Hmissing as [Hx | Hy]; [done |]. by rewrite Hy.
  - intros o Ho. unfold analysis. cbn [the_module bind].
    destruct o as [| | | | | df |]; try done. by destruct (Ho df).
  - intros npo o Hnp. unfold analysis.
    destruct npo as [| | | m | | |]; try done.
    by destruct m.
Qed.

Lemma analysis_error_behaviour_witness :
  analysis lcg_numpy (OModule Mnumpy)
    (OFrame {| columns := [("x", [1%float])] |}) = Raise KeyError
  /\ analysis lcg_numpy (OModule Mnumpy) ONone = Raise TypeError
  /\ analysis lcg_numpy ONone ONone = Raise AttributeError.
Proof.
  destruct (analysis_error_behaviour lcg_numpy) as (Hkey & Htype & Hattr).
  split; [| split].
  - apply Hkey. right. reflexivity.
  - apply Htype. intros df. discriminate.
  - apply Hattr. discriminate.
Defined.

(** X6. The analysis cell reads the columns "x" and "y" and nothing
    else: two frames that agree on these two lookups, whatever their other
    columns and whatever the order of their columns, get the same
    result. *)
Theorem analysis_reads_only_columns_x_and_y (np : numpy) (npo : obj)
  (df df' : DataFrame) :
  getitem df "x" = getitem df' "x" ->
  getitem df "y" = getitem df' "y" ->
  analysis np npo (OFrame df) = analysis np npo (OFrame df').
Proof.
  intros Hx Hy. unfold analysis, subscript. by rewrite Hx, Hy.
Qed.

Lemma analysis_reads_only_columns_x_and_y_witness :
  analysis lcg_numpy (OModule Mnumpy)
    (OFrame {| columns := [("x", [1; 2; 4]%float);
                           ("y", [2; 4; 9]%float)] |})
  = analysis lcg_numpy (OModule Mnumpy)
      (OFrame {| columns := [("t", [0; 0; 0]%float);
                             ("y", [2; 4; 9]%float);
                             ("x", [1; 2; 4]%float)] |}).
Proof.
  apply (analysis_reads_only_columns_x_and_y lcg_numpy (OModule Mnumpy));
    reflexivity.
Defined.



(** *** The plot cell *)

(** X8. On a well-formed frame with columns "x" and "y" the plot cell
    never raises, and the figure it returns holds exactly one scatter, of
    the column x against the column y, with the x axis labelled "x", the
    y axis labelled "y" and the title "Scatter plot of y vs x". *)
Theorem plot_draws_one_scatter_of_y_against_x (df : DataFrame)
  (x y : ndarray) :
  well_formed df = true ->
  getitem df "x" = Ok x -> getitem df "y" = Ok y ->
  plot (OFrame df) (OModule Mpyplot)
  = Ok (OFigure {| axes := {| collections := [(x, y)];
                              xlabel := "x"; ylabel := "y";
                              title := "Scatter plot of y vs x" |} |}).
Proof.
  intros Hwf Hx Hy.
  assert (length x = length y) as Hlen.
  { rewrite (well_formed_column df "x" x), (well_formed_column df "y" y);
      done. }
  unfold plot, subscript, scatter. cbn [the_module bind].
  rewrite Hx, Hy. cbn [bind].
  by rewrite (proj2 (Nat.eqb_eq _ _) Hlen).
Qed.

Lemma plot_draws_one_scatter_of_y_against_x_witness :
  let x := [1; 2; 4]%float in
  let y := [2; 4; 9]%float in
  plot (OFrame {| columns := [("x", x); ("y", y)] |}) (OModule Mpyplot)
  = Ok (OFigure {| axes := {| collections := [(x, y)];
                              xlabel := "x"; ylabel := "y";
                              title := "Scatter plot of y vs x" |} |}).
Proof.
  intros x y.
  apply (plot_draws_one_scatter_of_y_against_x
           {| columns := [("x", x); ("y", y)] |} x y); reflexivity.
Defined.


(** *** The preview cell *)

Lemma lookup_column_head (k : nat) (key : string)
  (cols : list (string * ndarray)) :
  lookup_column key (map (fun kc => (fst kc, firstn k (snd kc))) cols)
  = firstn k <$> lookup_column key cols.
Proof.
  induction cols as [| [k' c] cols IH]; [done |].
  cbn [map lookup_column fst snd]. by destruct (String.eqb k' key).
Qed.

Lemma same_length_head (k m : nat) (cols : list (string * ndarray)) :
  same_length m cols = true ->
  same_length (k `min` m)
    (map (fun kc => (fst kc, firstn k (snd kc))) cols) = true.
Proof.
  induction cols as [| [k' c] cols IH]; [done |].
  unfold same_length in *. cbn [map forallb fst snd].
  intros [Hc Hrest]%andb_prop. rewrite IH by done.
  apply Nat.eqb_eq in Hc. rewrite length_firstn, Hc.
  by rewrite Nat.eqb_refl.
Qed.

Lemma head_of_short_columns (k m : nat) (cols : list (string * ndarray)) :
  same_length m cols = true -> (m <= k)%nat ->
  map (fun kc => (fst kc, firstn k (snd kc))) cols = cols.
Proof.
  intros Hlen Hshort. induction cols as [| [k' c] cols IH]; [done |].
  unfold same_length in Hlen. cbn [forallb snd] in Hlen.
  apply andb_prop in Hlen as [Hc Hrest]. apply Nat.eqb_eq in Hc.
  cbn [map fst snd]. rewrite firstn_all2 by lia.
  f_equal. by apply IH.
Qed.

(** X10. On every well-formed frame the preview cell returns None without
    raising, and what it displays is the frame of the first
    [min(12, rows)] rows: the same column names in the same order, every
    column cut to its first 12 entries, again well-formed.  An empty frame
    or a frame of fewer than 12 rows is displayed whole. *)
Theorem preview_shows_the_first_twelve_rows (df : DataFrame) :
  well_formed df = true ->
  preview (OFrame df) = Ok ONone /\
  exists shown : DataFrame,
    preview_shown (OFrame df) = Ok shown /\
    column_names shown = column_names df /\
    nrows shown = (12 `min` nrows df)%nat /\
    well_formed shown = true /\
    (forall (key : string) (c : ndarray),
       getitem df key = Ok c -> getitem shown key = Ok (firstn 12 c)) /\
    ((nrows df <= 12)%nat -> shown = df).
Proof.
  intros Hwf. split; [reflexivity |].
  exists (head 12 df). split; [reflexivity |].
  assert (nrows (head 12 df) = (12 `min` nrows df)%nat) as Hrows.
  { unfold nrows, head. cbn [columns].
    destruct (columns df) as [| [k c] cols]; [done |].
    cbn [map fst snd]. apply length_firstn. }
  split; [| split; [done | split; [| split]]].
  - unfold column_names, head. cbn [columns].
    rewrite map_map. by apply map_ext.
  - unfold well_formed. rewrite Hrows. by apply same_length_head.
  - intros key c. unfold getitem, head. cbn [columns].
    rewrite lookup_column_head.
    by destruct (lookup_column key (columns df)); intros [= <-].
  - intros Hshort. destruct df as [cols]. unfold head. cbn [columns].
    f_equal. by eapply head_of_short_columns.
Qed.

Lemma preview_shows_the_first_twelve_rows_witness :
  let df := frame_of (fst (data lcg_numpy (OModule Mnumpy)
                             (OModule Mpandas) (n_slider 50)
                             (sigma_slider 1) [])) in
  preview (OFrame df) = Ok ONone /\
  exists shown : DataFrame,
    preview_shown (OFrame df) = Ok shown /\
    column_names shown = column_names df /\
    nrows shown = (12 `min` nrows df)%nat /\
    well_formed shown = true /\
    (forall (key : string) (c : ndarray),
       getitem df key = Ok c -> getitem shown key = Ok (firstn 12 c)) /\
    ((nrows df <= 12)%nat -> shown = df).
Proof.
  intros df.
  apply (preview_shows_the_first_twelve_rows df).
  vm_compute. reflexivity.
Defined.


(** *** The summary cell *)



(** *** The cells downstream of the data cell *)





(** *** The wiring of the cell table *)

Lemma inputs_resolvedb_sound {W : Type} (bound : list string)
  (cs : list (cell W)) :
  inputs_resolvedb bound cs = true ->
  forall (i : nat) (c : cell W) (q : string),
    cs !! i = Some c -> q ∈ params c ->
    q ∈ bound \/
    exists (j : nat) (b : cell W),
      (j < i)%nat /\ cs !! j = Some b /\ q ∈ returns b.
Proof.
  revert bound. induction cs as [| c0 cs IH]; intros bound Hb i c q Hi Hq.
  - by rewrite lookup_nil in Hi.
  - cbn [inputs_resolvedb] in Hb. apply andb_prop in Hb as [Hc0 Hrest].
    destruct i as [| i].
    + injection Hi as <-. left.
      rewrite forallb_forall in Hc0.
      specialize (Hc0 q (proj1 (list_elem_of_In _ _) Hq)).
      by apply bool_decide_eq_true in Hc0.
    + cbn [lookup list_lookup] in Hi.
      destruct (IH _ Hrest i c q Hi Hq) as [Hin | (j & b & Hj & Hb & Hqb)].
      * apply elem_of_app in Hin as [Hin | Hin]; [| by left].
        right. exists 0%nat, c0. split; [lia |]. by split.
      * right. exists (S j), b. split; [lia |]. by split.
Qed.


(** *** A pass over the notebook *)

Lemma settle_fresh {W : Type} (σ : graph_state W) (c : cell W)
  (args : list (option obj)) (vals : list obj) (w : W) :
  is_stale σ c = true ->
  resolve (outputs σ) (params c) = Ok args ->
  body c args (world σ) = (Ok vals, w) ->
  settle σ c
  = {| status := <[name c := Fresh]> (status σ);
       outputs := store_values (returns c) vals (outputs σ);
       world := w;
       recomputed := recomputed σ ++ [name c] |}.
Proof. intros Hst Hres Hbody. unfold settle. by rewrite Hst, Hres, Hbody. Qed.

Lemma resolve_cons_value (outs : gmap string slot) (q : string)
  (ps : list string) (v : obj) (args : list (option obj)) :
  outs !! q = Some (Value v) -> resolve outs ps = Ok args ->
  resolve outs (q :: ps) = Ok (Some v :: args).
Proof. intros Hq Hps. cbn [resolve]. by rewrite Hq, Hps. Qed.

Lemma resolve_cons_none (outs : gmap string slot) (q : string)
  (ps : list string) (args : list (option obj)) :
  outs !! q = None -> resolve outs ps = Ok args ->
  resolve outs (q :: ps) = Ok (None :: args).
Proof. intros Hq Hps. cbn [resolve]. by rewrite Hq, Hps. Qed.

(** Lookups in a map built by inserting under literal names. *)
Ltac lookup_literal :=
  repeat first [ rewrite lookup_insert_eq
               | rewrite lookup_insert_ne by done ].

Ltac resolve_literal :=
  repeat first [ eapply resolve_cons_value; [by lookup_literal |]
               | eapply resolve_cons_none; [by lookup_literal |] ];
  reflexivity.

Section Pass.

Variable np : numpy.
Hypothesis np_ok : numpy_ok np.

Lemma plot_on_xy (x y : ndarray) :
  length x = length y ->
  plot (OFrame {| columns := [("x", x); ("y", y)] |}) (OModule Mpyplot)
  = Ok (OFigure (scatter_figure x y)).
Proof.
  intros Hlen. unfold plot, subscript, getitem, scatter.
  cbn [the_module bind columns lookup_column String.eqb Ascii.eqb
       Bool.eqb].
  by rewrite (proj2 (Nat.eqb_eq _ _) Hlen).
Qed.

(** The five cells downstream of the sliders, from a state in which they
    are stale and the modules and sliders are in place. *)
Lemma downstream_pass (σ : graph_state (heap np)) (sn ss : slider)
  (k : Z) (sc : float) :
  status σ !! "data" = Some Stale ->
  status σ !! "analysis" = Some Stale ->
  status σ !! "summary" = Some Stale ->
  status σ !! "plot" = Some Stale ->
  status σ !! "preview" = Some Stale ->
  outputs σ !! "mo" = None ->
  outputs σ !! "np" = Some (Value (OModule Mnumpy)) ->
  outputs σ !! "pd" = Some (Value (OModule Mpandas)) ->
  outputs σ !! "plt" = Some (Value (OModule Mpyplot)) ->
  outputs σ !! "n" = Some (Value (OSlider sn)) ->
  outputs σ !! "sigma" = Some (Value (OSlider ss)) ->
  py_int (value sn) = Ok k -> 0 <= k ->
  py_float (value ss) = Ok sc -> PrimFloat.leb 0 sc = true ->
  exists (x y : ndarray) (corr : float) (g : BitGenerator np),
    length x = Z.to_nat k /\ length y = Z.to_nat k /\
    foldl settle σ [data_cell np; analysis_cell np; summary_cell np;
                    plot_cell np; preview_cell np]
    = {| status :=
           <["preview" := Fresh]>
             (<["plot" := Fresh]>
                (<["summary" := Fresh]>
                   (<["analysis" := Fresh]>
                      (<["data" := Fresh]> (status σ)))));
         outputs :=
           <["fig" := Value (OFigure (scatter_figure x y))]>
             (<["corr" := Value (OFloat corr)]>
                (<["df" := Value (OFrame {| columns := [("x", x);
                                                        ("y", y)] |})]>
                   (outputs σ)));
         world := world σ ++ [g];
         recomputed := recomputed σ ++ ["data"; "analysis"; "summary";
                                        "plot"; "preview"] |}.
Proof.
  intros Sd Sa Ss Sp Sv Omo Onp Opd Oplt On Osg Hk Hpos Hsc Hscale.
  destruct (data_returns np np_ok (OSlider sn) (OSlider ss)
              (value sn) (value ss) k sc (world σ))
    as (x & noise & g1 & g2 & Hx & Hn & Hlx & Hln & Hrun); try done.
  set (y := zip_with (fun a e => (2 * a + e)%float) x noise) in *.
  assert (length y = Z.to_nat k) as Hly
    by (unfold y; rewrite length_zip_with; lia).
  set (df := {| columns := [("x", x); ("y", y)] |}) in *.
  assert (well_formed df = true) as Hwf.
  { unfold well_formed, nrows, same_length, df.
    cbn [columns forallb snd]. by rewrite Hly, <- Hlx, Nat.eqb_refl. }
  destruct (analysis_on_frame np np_ok df x y Hwf eq_refl eq_refl)
    as (a & corr & c & d & _ & Han).
  assert (summary mo (OSlider sn) (OSlider ss) (OFloat corr) = Ok ONone)
    as Hsum.
  { unfold summary, summary_md, attr_value, format_spec_f.
    cbn [mo the_module bind]. rewrite Hk. cbn [bind]. by rewrite Hsc. }
  assert (plot (OFrame df) (OModule Mpyplot)
          = Ok (OFigure (scatter_figure x y))) as Hplot
    by (apply plot_on_xy; congruence).
  exists x, y, corr, g2. split; [done |]. split; [done |].
  cbn [foldl].
  (* data *)
  rewrite (settle_fresh σ (data_cell np)
             [Some (OModule Mnumpy); Some (OModule Mpandas);
              Some (OSlider sn); Some (OSlider ss)]
             [OFrame df] (world σ ++ [g2])); cycle 1.
  { unfold is_stale. cbn [name data_cell]. by rewrite Sd. }
  { cbn [params data_cell]. resolve_literal. }
  { cbn [body data_cell]. unfold seq, lift, ret, required.
    by rewrite Hrun. }
  cbn [name returns data_cell store_values].
  (* analysis *)
  rewrite (settle_fresh _ (analysis_cell np)
             [Some (OModule Mnumpy); Some (OFrame df)]
             [OFloat corr] (world σ ++ [g2])); cycle 1.
  { unfold is_stale. cbn [name analysis_cell status].
    lookup_literal. by rewrite Sa. }
  { cbn [params analysis_cell outputs]. resolve_literal. }
  { cbn [body analysis_cell world]. unfold lift, required. cbn [bind].
    by rewrite Han. }
  cbn [name returns analysis_cell store_values status outputs world
       recomputed].
  (* summary *)
  rewrite (settle_fresh _ (summary_cell np)
             [None; Some (OSlider sn); Some (OSlider ss);
              Some (OFloat corr)]
             [] (world σ ++ [g2])); cycle 1.
  { unfold is_stale. cbn [name summary_cell status].
    lookup_literal. by rewrite Ss. }
  { cbn [params summary_cell outputs]. resolve_literal. }
  { cbn [body summary_cell world]. unfold lift. cbn [default].
    by rewrite Hsum. }
  cbn [name returns summary_cell store_values status outputs world
       recomputed].
  (* plot *)
  rewrite (settle_fresh _ (plot_cell np)
             [Some (OFrame df); Some (OModule Mpyplot)]
             [OFigure (scatter_figure x y)] (world σ ++ [g2])); cycle 1.
  { unfold is_stale. cbn [name plot_cell status].
    lookup_literal. by rewrite Sp. }
  { cbn [params plot_cell outputs]. resolve_literal. }
  { cbn [body plot_cell world]. unfold lift, required. cbn [bind].
    by rewrite Hplot. }
  cbn [name returns plot_cell store_values status outputs world
       recomputed].
  (* preview *)
  rewrite (settle_fresh _ (preview_cell np)
             [Some (OFrame df)] [] (world σ ++ [g2])); cycle 1.
  { unfold is_stale. cbn [name preview_cell status].
    lookup_literal. by rewrite Sv. }
  { cbn [params preview_cell outputs]. resolve_literal. }
  { reflexivity. }
  cbn [name returns preview_cell store_values status outputs world
       recomputed].
  by rewrite <- !app_assoc.
Qed.

(** The state of the notebook after its first pass. *)
Lemma first_pass_state :
  exists (x y : ndarray) (corr : float) (g : BitGenerator np),
    length x = 500%nat /\ length y = 500%nat /\
    evaluate (app np) (init (app np) ∅ [])
    = {| status :=
           <["preview" := Fresh]>
             (<["plot" := Fresh]>
                (<["summary" := Fresh]>
                   (<["analysis" := Fresh]>
                      (<["data" := Fresh]>
                         (<["widgets" := Fresh]>
                            (<["imports" := Fresh]>
                               (status (init (app np) ∅ []))))))));
         outputs :=
           <["fig" := Value (OFigure (scatter_figure x y))]>
             (<["corr" := Value (OFloat corr)]>
                (<["df" := Value (OFrame {| columns := [("x", x);
                                                        ("y", y)] |})]>
                   (<["sigma" := Value (sigma_slider 1)]>
                      (<["n" := Value (n_slider 500)]>
                         (<["plt" := Value (OModule Mpyplot)]>
                            (<["pd" := Value (OModule Mpandas)]>
                               (<["np" := Value (OModule Mnumpy)]> ∅)))))));
         world := [g];
         recomputed := ["imports"; "widgets"; "data"; "analysis";
                        "summary"; "plot"; "preview"] |}.
Proof.
  set (σ0 := init (app np) ∅ []).
  assert (forall k : string,
            k ∈ ["imports"; "widgets"; "data"; "analysis"; "summary";
                 "plot"; "preview"] -> status σ0 !! k = Some Stale)
    as Hstale.
  { intros k Hk.
    repeat (apply elem_of_cons in Hk as [-> | Hk]); try by vm_compute.
    by apply elem_of_nil in Hk. }
  unfold evaluate, app. cbn [foldl].
  rewrite (settle_fresh σ0 (imports_cell np) []
             [OModule Mnumpy; OModule Mpandas; OModule Mpyplot] []);
    cycle 1.
  { unfold is_stale. cbn [name imports_cell].
    rewrite Hstale; [done | set_solver]. }
  { reflexivity. }
  { reflexivity. }
  cbn [name returns imports_cell store_values].
  rewrite (settle_fresh _ (widgets_cell np) [None]
             [n_slider 500; sigma_slider 1] []); cycle 1.
  { unfold is_stale. cbn [name widgets_cell status].
    lookup_literal. rewrite Hstale; [done | set_solver]. }
  { cbn [params widgets_cell outputs]. resolve_literal. }
  { reflexivity. }
  cbn [name returns widgets_cell store_values status outputs world
       recomputed].
  match goal with
  | |- ex (fun _ => ex (fun _ => ex (fun _ => ex (fun _ =>
         _ /\ _ /\
         settle (settle (settle (settle (settle ?σ _) _) _) _) _ = _)))) =>
      destruct (downstream_pass σ (n_widget 500) (sigma_widget 1)
                  500 1%float)
        as (x & y & corr & g & Hlx & Hly & Hpass)
  end;
    try (cbn [status outputs]; lookup_literal;
         first [ apply Hstale; set_solver | reflexivity ]);
    try reflexivity; try lia.
  exists x, y, corr, g. split; [done |]. split; [done |].
  cbn [foldl] in Hpass. rewrite Hpass. reflexivity.
Qed.

End Pass.




